(** * jtso/container: two-point sampling and aggregation of container metrics

    A shallow embedding of [container/container.go]: the metric calculator
    ([calculateCPUPercent] and the memory block of [collectStats]), the
    per-target sampler [collectStats], the orchestrator [GetContainerStats]
    and the mutex-guarded store [Cstats.Stats].

    - [float64] values are IEEE 754 binary64 numbers, computed with the
      executable specification of the Standard Library ([SpecFloat], 53 bits
      of precision, round to nearest even).
    - [uint64]/[uint32] counters are integers in [Z]; Go's unsigned
      subtraction wraps modulo [2^64] and is written out as such.
    - Go maps are [gmap]s; [map[string]map[string]float64] is a map of maps.
    - What the Docker daemon answers (client creation, listing, stats
      requests) and the order in which goroutines reach the result channel
      are inputs of the model, gathered in a [World]. *)

From Stdlib Require Import ZArith Lia Bool List Ascii String.
From Stdlib Require Import Floats.SpecFloat.
From stdpp Require Import gmap strings list fin_maps sorting.

(* ===================================================================== *)
(** * Part I: definitions                                                  *)
(* ===================================================================== *)

(** ** binary64 arithmetic *)

Module F64.
Local Open Scope Z_scope.

Definition prec : Z := 53.
Definition emax : Z := 1024.

(** Conversion [float64(n)] of an integer: exact when representable,
    otherwise rounded to nearest, ties to even. *)
Definition of_Z (n : Z) : spec_float := binary_normalize prec emax n 0 false.

Definition zero : spec_float := S754_zero false.
Definition sub (x y : spec_float) : spec_float := SFsub prec emax x y.
Definition mul (x y : spec_float) : spec_float := SFmul prec emax x y.
Definition div (x y : spec_float) : spec_float := SFdiv prec emax x y.
Definition leb (x y : spec_float) : bool := SFleb x y.
Definition ltb (x y : spec_float) : bool := SFltb x y.

(** Neither an infinity nor a NaN. *)
Definition is_finite (x : spec_float) : bool :=
  match x with
  | S754_zero _ | S754_finite _ _ _ => true
  | S754_infinity _ | S754_nan => false
  end.

(** [fin_in s lo hi x]: [x] is a non-zero finite number of sign [s] whose
    magnitude lies in [[2^(lo-1), 2^hi)], with a mantissa of at most 53 bits. *)
Definition fin_in (s : bool) (lo hi : Z) (x : spec_float) : Prop :=
  exists m e, x = S754_finite s m e
    /\ lo <= Zpos (digits2_pos m) + e <= hi /\ Zpos (digits2_pos m) <= 53.

(** [+0.0] or a positive finite number in the given range. *)
Definition nonneg_in (lo hi : Z) (x : spec_float) : Prop :=
  x = S754_zero false \/ fin_in false lo hi x.

(** [+0.0], or a positive normalised number [m * 2^e] (53-bit mantissa,
    [lo <= e <= 0]) whose value is at most the integer [B]. *)
Definition at_most (lo B : Z) (x : spec_float) : Prop :=
  x = S754_zero false
  \/ exists m e, x = S754_finite false m e
       /\ Zpos (digits2_pos m) = 53 /\ lo <= e <= 0 /\ Zpos m <= B * 2 ^ (- e).

End F64.

Abbreviation float64 := spec_float.

#[global] Instance spec_float_eq_dec : EqDecision spec_float.
Proof. solve_decision. Defined.

(** ** Unsigned machine integers *)

Definition uint64 (n : Z) : Prop := (0 <= n < 2 ^ 64)%Z.
Definition uint32 (n : Z) : Prop := (0 <= n < 2 ^ 32)%Z.

(** Go's [a - b] on [uint64] operands: the difference modulo [2^64]. *)
Definition sub64 (a b : Z) : Z := ((a - b) mod 2 ^ 64)%Z.

(** ** The Docker API types the package reads

    They are declared by the imported package
    [github.com/moby/moby/api/types/container], not by this repository; only
    the fields the code touches are kept. There [TotalUsage], [SystemUsage],
    [Usage], [Limit] and the values of [Stats] are [uint64] and [OnlineCPUs]
    is [uint32]; [Names] is a [[]string]. *)

Module container.

Record CPUUsage := { TotalUsage : Z }.

Record CPUStats := {
  CPUUsage_ : CPUUsage;
  SystemUsage : Z;
  OnlineCPUs : Z
}.

Record MemoryStats := {
  Usage : Z;
  Stats : gmap string Z;
  Limit : Z
}.

Record StatsResponse := {
  CPUStats_ : CPUStats;
  MemoryStats_ : MemoryStats
}.

Record Summary := {
  ID : string;
  Names : list string
}.

(** Values that inhabit the Go types. *)
Definition wf (s : StatsResponse) : Prop :=
  uint64 (TotalUsage (CPUUsage_ (CPUStats_ s)))
  /\ uint64 (SystemUsage (CPUStats_ s))
  /\ uint32 (OnlineCPUs (CPUStats_ s))
  /\ uint64 (Usage (MemoryStats_ s))
  /\ uint64 (Limit (MemoryStats_ s))
  /\ map_Forall (fun _ v => uint64 v) (Stats (MemoryStats_ s)).

End container.

(** ** [strings.TrimPrefix] *)

Definition HasPrefix (s prefix : string) : bool := String.prefix prefix s.

Definition TrimPrefix (s prefix : string) : string :=
  if HasPrefix s prefix
  then String.substring (String.length prefix)
         (String.length s - String.length prefix) s
  else s.

(** ** The store *)

(** [map[string]float64] and [map[string]map[string]float64]. *)
Abbreviation MetricResult := (gmap string spec_float).
Abbreviation Aggregate := (gmap string (gmap string spec_float)).

(** [type ContainerStats struct]; the mutex [StMu] is modelled with the
    interleaving semantics of [Module Store] below. *)
Record ContainerStats := {
  Interval : Z;
  Stats : gmap string (gmap string spec_float)
}.

Definition Init (i : Z) : ContainerStats :=
  {| Interval := i; Stats := ∅ |}.

(** ** Metric calculator *)

Definition calculateCPUPercent (current previous : container.StatsResponse) : float64 :=
  let cpuDelta :=
    F64.of_Z (sub64 (container.TotalUsage (container.CPUUsage_ (container.CPUStats_ current)))
                    (container.TotalUsage (container.CPUUsage_ (container.CPUStats_ previous)))) in
  let systemDelta :=
    F64.of_Z (sub64 (container.SystemUsage (container.CPUStats_ current))
                    (container.SystemUsage (container.CPUStats_ previous))) in
  let onlineCPUs := F64.of_Z (container.OnlineCPUs (container.CPUStats_ current)) in
  (* Avoid division by zero *)
  if F64.leb systemDelta F64.zero || F64.leb onlineCPUs F64.zero then F64.zero
  else F64.mul (F64.mul (F64.div cpuDelta systemDelta) onlineCPUs) (F64.of_Z 100).

(** Lines 85-95 of [collectStats]: the memory percentage. *)
Definition memUsageOf (currentStats : container.StatsResponse) : float64 :=
  let memUsage := F64.of_Z (container.Usage (container.MemoryStats_ currentStats)) in
  match container.Stats (container.MemoryStats_ currentStats) !! "cache" with
  | Some cache => F64.sub memUsage (F64.of_Z cache)
  | None => memUsage
  end.

Definition memPercentOf (currentStats : container.StatsResponse) : float64 :=
  let memUsage := memUsageOf currentStats in
  let memLimit := F64.of_Z (container.Limit (container.MemoryStats_ currentStats)) in
  if F64.ltb F64.zero memLimit
  then F64.mul (F64.div memUsage memLimit) (F64.of_Z 100)
  else F64.zero.

(** ** Effects of a goroutine: a trace of events, and a panic or a value *)

Inductive event :=
| EvLog (msg : string)                                   (* logger.Log.* *)
| EvStats (id : string)                                  (* cli.ContainerStats *)
| EvSleep (secs : Z)                                     (* time.Sleep *)
| EvSend (result : gmap string (gmap string spec_float)) (* resultChan <- ... *)
| EvDone.                                                (* wg.Done() *)

(** A computation yields the events it performed and either its value or,
    when it panicked, nothing. *)
Definition Go (A : Type) : Type := list event * option A.

Definition ret {A} (a : A) : Go A := ([], Some a).
Definition panic {A} : Go A := ([], None).
Definition emit (e : event) : Go unit := ([e], Some tt).

Definition bind {A B} (m : Go A) (k : A -> Go B) : Go B :=
  match m with
  | (tr, None) => (tr, None)
  | (tr, Some a) => let '(tr', r) := k a in (tr ++ tr', r)
  end.

(** [defer e; body]: the deferred call runs when [body] returns and also when
    it panics. *)
Definition defer {A} (e : event) (body : Go A) : Go A :=
  let '(tr, r) := body in (tr ++ [e], r).

(** [l[i]] with Go's bounds check. *)
Definition index {A} (l : list A) (i : nat) : Go A :=
  match l !! i with
  | Some a => ret a
  | None => panic
  end.

Declare Scope go_scope.
Delimit Scope go_scope with go.
Notation "x <- m ;; k" := (bind m (fun x => k))
  (at level 20, m at level 99, k at level 200, only parsing) : go_scope.
Notation "m ;;; k" := (bind m (fun _ => k))
  (at level 100, k at level 200, only parsing, right associativity) : go_scope.

Definition trace {A} (m : Go A) : list event := fst m.
Definition result {A} (m : Go A) : option A := snd m.

(** The messages a trace put on the result channel, in order. *)
Definition sends (tr : list event) : list (gmap string (gmap string spec_float)) :=
  omap (fun e => match e with EvSend r => Some r | _ => None end) tr.

Definition is_sleep (e : event) : bool :=
  match e with EvSleep _ => true | _ => false end.

Definition is_sampling (e : event) : bool :=
  match e with EvStats _ | EvSleep _ | EvSend _ | EvDone => true | EvLog _ => false end.

(** ** Per-target sampler *)

(** What one stats request comes back with: the request fails, or a body
    arrives that does or does not decode. *)
Inductive decoded :=
| DecodeErr
| Decoded (stats : container.StatsResponse).

Inductive fetched :=
| FetchErr
| Body (body : decoded).

(** The sentinel [{"error": 1.0}] and the success result [{"cpu":_, "mem":_}]. *)
Definition sentinel : gmap string spec_float := {[ "error" := F64.of_Z 1 ]}.

Definition metrics (cpuPercent memPercent : spec_float) : gmap string spec_float :=
  <[ "cpu" := cpuPercent ]> {[ "mem" := memPercent ]}.

(** [resultChan <- map[...]{containerSummary.Names[0]: {"error": 1.0}}]:
    the map literal is evaluated, indexing [Names], before the send. *)
Definition sendError (containerSummary : container.Summary) : Go unit :=
  (name <- index (container.Names containerSummary) 0 ;;
   emit (EvSend {[ name := sentinel ]}))%go.

(** [cli n] is the answer to the goroutine's [n]-th stats request
    ([cli.ContainerStats] followed by the JSON decoding of the body). The
    deferred [stats.Body.Close()] has no effect on what is modelled and is
    left out. *)
Definition collectStats (cli : nat -> fetched) (interval : Z)
    (containerSummary : container.Summary) : Go unit :=
  defer EvDone (
    (* Get initial stats *)
    emit (EvStats (container.ID containerSummary)) ;;;
    match cli 0%nat with
    | FetchErr => sendError containerSummary
    | Body DecodeErr => sendError containerSummary
    | Body (Decoded prevStats) =>
        (* Wait for the interval *)
        emit (EvSleep interval) ;;;
        (* Get next stats *)
        emit (EvStats (container.ID containerSummary)) ;;;
        match cli 1%nat with
        | FetchErr => sendError containerSummary
        | Body DecodeErr => sendError containerSummary
        | Body (Decoded currentStats) =>
            let cpuPercent := calculateCPUPercent currentStats prevStats in
            let memPercent := memPercentOf currentStats in
            (* Format results *)
            name <- index (container.Names containerSummary) 0 ;;
            let containerName := TrimPrefix name "/" in
            emit (EvSend {[ containerName := metrics cpuPercent memPercent ]})
        end
    end)%go.

(** ** Orchestrator *)

Record World := {
  (** [client.New(client.FromEnv)] succeeds *)
  client_New : bool;
  (** [cli.ContainerList]: the items, or an error *)
  ContainerList : option (list container.Summary);
  (** answers to the stats requests of the goroutine started for item [i] *)
  ContainerStats_ : nat -> nat -> fetched;
  (** the order in which the goroutines' sends reach the channel *)
  arrival : list nat
}.

(** Every goroutine sends once and they may finish in any order. *)
Definition fair (w : World) : Prop :=
  forall items, ContainerList w = Some items -> arrival w ≡ₚ seq 0 (length items).

(** The goroutines started by the [for ... range containers.Items] loop. *)
Definition spawn (w : World) (interval : Z) (items : list container.Summary)
    : list (Go unit) :=
  imap (fun i containerSummary => collectStats (ContainerStats_ w i) interval containerSummary) items.

(** Content of [resultChan] once every goroutine is done. *)
Definition channel (order : list nat) (runs : list (Go unit))
    : list (gmap string (gmap string spec_float)) :=
  flat_map (fun i => match runs !! i with
                     | Some run => sends (trace run)
                     | None => []
                     end) order.

(** [for result := range resultChan { maps.Copy(Cstats.Stats, result) }] on a
    fresh map: entries of a later result overwrite earlier ones. *)
Definition drain (resultChan : list (gmap string (gmap string spec_float)))
    : gmap string (gmap string spec_float) :=
  foldl (fun stats result => result ∪ stats) ∅ resultChan.

(** A panic in any goroutine takes the process down. *)
Definition wait (runs : list (Go unit)) : Go unit :=
  (concat (trace <$> runs),
   if forallb (fun run => bool_decide (result run = Some tt)) runs then Some tt else None).

Definition GetContainerStats (w : World) (Cstats : ContainerStats) : Go ContainerStats :=
  (emit (EvLog "Start collecting container stats") ;;;
   (* Initialize Docker client *)
   if negb (client_New w) then
     emit (EvLog "Error creating Docker client") ;;; ret Cstats
   else
     (* Get list of containers *)
     match ContainerList w with
     | None => emit (EvLog "Error listing containers") ;;; ret Cstats
     | Some items =>
         (* Collect stats in parallel, wait for all goroutines to finish *)
         let runs := spawn w (Interval Cstats) items in
         wait runs ;;;
         (* Aggregate results *)
         let Cstats' := {| Interval := Interval Cstats;
                           Stats := drain (channel (arrival w) runs) |} in
         emit (EvLog "End of the container stats collection") ;;;
         ret Cstats'
     end)%go.

(** ** The store under its mutex: interleavings of the orchestrator's
    critical section (lines 201-206) with readers that lock [StMu]

    The readers are not part of this package. A reader is any thread that
    takes [StMu], reads [Cstats.Stats] while it holds the mutex, and
    releases it; any number of them may run, each any number of times. *)

Module Store.

Inductive thread :=
| Orchestrator
| Reader (n : nat).

(** Where the orchestrator stands in lines 201-206. *)
Inductive pc :=
| AtLock                                                 (* Cstats.StMu.Lock() *)
| AtMake                                                 (* Cstats.Stats = make(...) *)
| AtRange (resultChan : list (gmap string (gmap string spec_float)))
                                                         (* for result := range resultChan *)
| Finished.                                              (* after Cstats.StMu.Unlock() *)

Record state := {
  stats : gmap string (gmap string spec_float);          (* Cstats.Stats *)
  StMu : option thread;                                  (* who holds the mutex *)
  at_ : pc;
  seen : list (gmap string (gmap string spec_float))     (* what readers observed *)
}.

(** The cycle starts with the results in the closed channel and the
    orchestrator about to lock. *)
Definition start (old : gmap string (gmap string spec_float)) : state :=
  {| stats := old; StMu := None; at_ := AtLock; seen := [] |}.

Inductive step (resultChan : list (gmap string (gmap string spec_float)))
    : state -> state -> Prop :=
| orch_lock s :
    at_ s = AtLock -> StMu s = None ->
    step resultChan s
      {| stats := stats s; StMu := Some Orchestrator; at_ := AtMake; seen := seen s |}
| orch_make s :
    at_ s = AtMake ->
    step resultChan s
      {| stats := ∅; StMu := StMu s; at_ := AtRange resultChan; seen := seen s |}
| orch_copy s result rest :
    at_ s = AtRange (result :: rest) ->
    step resultChan s
      {| stats := result ∪ stats s; StMu := StMu s; at_ := AtRange rest; seen := seen s |}
| orch_unlock s :
    at_ s = AtRange [] ->
    step resultChan s
      {| stats := stats s; StMu := None; at_ := Finished; seen := seen s |}
| reader_lock s n :
    StMu s = None ->
    step resultChan s
      {| stats := stats s; StMu := Some (Reader n); at_ := at_ s; seen := seen s |}
| reader_read s n :
    StMu s = Some (Reader n) ->
    step resultChan s
      {| stats := stats s; StMu := StMu s; at_ := at_ s; seen := stats s :: seen s |}
| reader_unlock s n :
    StMu s = Some (Reader n) ->
    step resultChan s
      {| stats := stats s; StMu := None; at_ := at_ s; seen := seen s |}.

(** The orchestrator is between allocating the fresh map and the end of the
    range loop. *)
Definition replacing (s : state) : Prop :=
  match at_ s with
  | AtMake | AtRange _ => True
  | AtLock | Finished => False
  end.

(** What holds between any two steps: outside the critical section the store
    is the old or the new aggregate; inside it the orchestrator holds the
    mutex and the results still to be copied complete the new aggregate. *)
Definition store_inv (old : gmap string (gmap string spec_float))
    (resultChan : list (gmap string (gmap string spec_float))) (s : state) : Prop :=
  match at_ s with
  | AtLock => stats s = old /\ StMu s <> Some Orchestrator
  | AtMake => StMu s = Some Orchestrator
  | AtRange rest =>
      StMu s = Some Orchestrator
      /\ foldl (fun stats result => result ∪ stats) (stats s) rest = drain resultChan
  | Finished => stats s = drain resultChan /\ StMu s <> Some Orchestrator
  end
  /\ Forall (fun a => a = old \/ a = drain resultChan) (seen s).

End Store.

(** ** The quantities the specification speaks of *)

(** Section 4.1: the deltas of the cumulative counters, as numbers. *)
Definition cpuDelta (current previous : container.StatsResponse) : Z :=
  (container.TotalUsage (container.CPUUsage_ (container.CPUStats_ current))
   - container.TotalUsage (container.CPUUsage_ (container.CPUStats_ previous)))%Z.

Definition systemDelta (current previous : container.StatsResponse) : Z :=
  (container.SystemUsage (container.CPUStats_ current)
   - container.SystemUsage (container.CPUStats_ previous))%Z.

Definition onlineUnits (current : container.StatsResponse) : Z :=
  container.OnlineCPUs (container.CPUStats_ current).

(** [(cpuDelta / systemDelta) * onlineUnits * 100.0] in binary64. *)
Definition spec_cpuPercent (current previous : container.StatsResponse) : float64 :=
  F64.mul (F64.mul (F64.div (F64.of_Z (cpuDelta current previous))
                            (F64.of_Z (systemDelta current previous)))
                   (F64.of_Z (onlineUnits current)))
          (F64.of_Z 100).

Definition memoryUsageBytes (current : container.StatsResponse) : Z :=
  container.Usage (container.MemoryStats_ current).

(** The cache counter; a snapshot without one reports no cache. *)
Definition memoryCacheBytes (current : container.StatsResponse) : Z :=
  default 0%Z (container.Stats (container.MemoryStats_ current) !! "cache").

Definition memoryLimitBytes (current : container.StatsResponse) : Z :=
  container.Limit (container.MemoryStats_ current).

(** [((memoryUsageBytes - memoryCacheBytes) / memoryLimitBytes) * 100.0]
    in binary64. *)
Definition spec_memPercent (current : container.StatsResponse) : float64 :=
  F64.mul (F64.div (F64.sub (F64.of_Z (memoryUsageBytes current))
                            (F64.of_Z (memoryCacheBytes current)))
                   (F64.of_Z (memoryLimitBytes current)))
          (F64.of_Z 100).

(** A target fails when one of its two snapshots cannot be fetched or decoded. *)
Definition failed (cli : nat -> fetched) : bool :=
  match cli 0%nat, cli 1%nat with
  | Body (Decoded _), Body (Decoded _) => false
  | _, _ => true
  end.

(** What the sampler of a named target puts on the channel: the key and
    the value of its one-entry map. *)
Definition sample_key (cli : nat -> fetched) (name : string) : string :=
  if failed cli then name else TrimPrefix name "/".

Definition sample_value (cli : nat -> fetched) : gmap string spec_float :=
  match cli 0%nat, cli 1%nat with
  | Body (Decoded previous), Body (Decoded current) =>
      metrics (calculateCPUPercent current previous) (memPercentOf current)
  | _, _ => sentinel
  end.

(** The first name of a target, and the entry that target [i] of the list
    contributes to the aggregate. *)
Definition first_name (containerSummary : container.Summary) : string :=
  default "" (head (container.Names containerSummary)).

Definition entry (w : World) (items : list container.Summary) (i : nat)
    : string * gmap string spec_float :=
  (sample_key (ContainerStats_ w i) (default "" (first_name <$> items !! i)),
   sample_value (ContainerStats_ w i)).

(** The number [K] of failing targets of a cycle. *)
Definition failures (w : World) (items : list container.Summary) : nat :=
  length (filter (fun i => failed (ContainerStats_ w i) = true) (seq 0 (length items))).

(** The display name of a target: its first name without the leading
    separator. *)
Definition displayName (containerSummary : container.Summary) : option string :=
  (fun name => TrimPrefix name "/") <$> head (container.Names containerSummary).

(** Names as the runtime reports them: the separator, then a name that does
    not itself start with the separator. *)
Definition runtime_name (name : string) : Prop :=
  exists rest, name = String "/" rest /\ HasPrefix rest "/" = false.

Definition runtime_named (containerSummary : container.Summary) : Prop :=
  exists name, head (container.Names containerSummary) = Some name /\ runtime_name name.

Definition is_sentinel (r : gmap string spec_float) : Prop := r = sentinel.

Definition is_metrics (r : gmap string spec_float) : Prop :=
  dom r = ({[ "cpu"; "mem" ]} : gset string).

#[global] Instance is_sentinel_dec r : Decision (is_sentinel r).
Proof. unfold is_sentinel. apply _. Defined.

#[global] Instance is_metrics_dec r : Decision (is_metrics r).
Proof. unfold is_metrics. apply _. Defined.

(** How many keys of an aggregate hold a result of a given kind. *)
Definition count_entries (P : gmap string spec_float -> Prop)
    `{forall r, Decision (P r)} (m : gmap string (gmap string spec_float)) : nat :=
  length (filter (fun kv => P kv.2) (map_to_list m)).

(** ** Concrete values used in the examples below *)

Definition snapshot (cpu system cpus usage limit : Z) (stats : gmap string Z)
    : container.StatsResponse :=
  {| container.CPUStats_ :=
       {| container.CPUUsage_ := {| container.TotalUsage := cpu |};
          container.SystemUsage := system;
          container.OnlineCPUs := cpus |};
     container.MemoryStats_ :=
       {| container.Usage := usage; container.Stats := stats; container.Limit := limit |} |}.

Definition target (id name : string) : container.Summary :=
  {| container.ID := id; container.Names := [name] |}.

(** The example of section 8 of the specification: one target "web", CPU
    time 100 -> 150, system time 1000 -> 1100, two CPUs, 80 bytes used of
    which 10 are cache, limit 100. *)
Definition one_target : World :=
  {| client_New := true;
     ContainerList := Some [target "1" "/web"];
     ContainerStats_ := fun _ n =>
       match n with
       | O => Body (Decoded (snapshot 100 1000 2 80 100 {[ "cache" := 10%Z ]}))
       | _ => Body (Decoded (snapshot 150 1100 2 80 100 {[ "cache" := 10%Z ]}))
       end;
     arrival := [0]%nat |}.

(** A cycle over two targets: the first fetch of ["/a"] fails, ["/b"] is
    sampled twice, and ["/b"] reaches the channel first. *)
Definition two_targets : World :=
  {| client_New := true;
     ContainerList := Some [target "1" "/a"; target "2" "/b"];
     ContainerStats_ := fun i n =>
       match i, n with
       | O, _ => FetchErr
       | _, O => Body (Decoded (snapshot 100 1000 2 80 100 {[ "cache" := 10%Z ]}))
       | _, _ => Body (Decoded (snapshot 150 1100 2 80 100 {[ "cache" := 10%Z ]}))
       end;
     arrival := [1; 0]%nat |}.

(** The same cycle with the sends arriving in list order. *)
Definition two_targets_in_order : World :=
  {| client_New := true;
     ContainerList := ContainerList two_targets;
     ContainerStats_ := ContainerStats_ two_targets;
     arrival := [0; 1]%nat |}.

(** ** Counting the events of a trace *)

Definition is_done (e : event) : bool :=
  match e with EvDone => true | _ => false end.

Definition is_stats (e : event) : bool :=
  match e with EvStats _ => true | _ => false end.

Definition count (p : event -> bool) (tr : list event) : nat :=
  length (List.filter p tr).

(** ** [GetContainerLogs] *)

(** What [GetContainerLogs] returns as its [error]: an error handed back by
    the client library, or the one it builds itself with [fmt.Errorf]. *)
Inductive failure :=
| DockerErr (err : string)
| NotFound (containerName : string).

(** The calls [GetContainerLogs] makes, in order. *)
Inductive call :=
| CallContainerList (all : bool)                        (* cli.ContainerList *)
| CallContainerLogs (id : string) (showStdout showStderr : bool) (tail : string)
                                                        (* cli.ContainerLogs *)
| CallLog (msg : string)                                (* logger.Log.Errorf *)
| CallCloseLogs                                         (* logs.Close() *)
| CallCloseClient.                                      (* cli.Close() *)

(** The daemon as [GetContainerLogs] sees it. The log stream of a container
    is given by what [bufio.Scanner] makes of it: the lines [Scan] yields
    and the error [Err] reports once [Scan] has returned false. *)
Record Docker := {
  (** the error of [client.New(client.FromEnv)], if any *)
  New : option string;
  (** [cli.ContainerList] with [All: true]: the items and the error *)
  ContainerListAll : list container.Summary * option string;
  (** [cli.ContainerLogs]: the scanned stream, or an error *)
  ContainerLogs : string -> (list string * option string) + string
}.

(** Lines 125-131: the ID of the first container that carries the name
    ["/" + containerName]; [""] when there is none. *)
Fixpoint findContainerID (items : list container.Summary) (containerName : string)
    : string :=
  match items with
  | [] => ""
  | containerSummary :: rest =>
      if bool_decide (String "/" containerName ∈ container.Names containerSummary)
      then container.ID containerSummary
      else findContainerID rest containerName
  end.

(** Lines 154-157: [if len(line) > 8 { line = line[8:] }]. *)
Definition stripHeader (line : string) : string :=
  if (8 <? String.length line)%nat
  then String.substring 8 (String.length line - 8) line
  else line.

Definition GetContainerLogs (d : Docker) (containerName : string)
    : list call * (list string * option failure) :=
  let logLines : list string := [] in
  (* Open Docker API *)
  match New d with
  | Some err =>
      ([CallLog "Unable to open Docker session"], (logLines, Some (DockerErr err)))
  | None =>
      match ContainerListAll d with
      | (_, Some err) =>
          ([CallContainerList true; CallLog "Unable to list the containers";
            CallCloseClient],
           (logLines, Some (DockerErr err)))
      | (items, None) =>
          let containerID := findContainerID items containerName in
          if String.eqb containerID "" then
            ([CallContainerList true; CallLog "Container with name not found";
              CallCloseClient],
             (logLines, Some (NotFound containerName)))
          else
            match ContainerLogs d containerID with
            | inr err =>
                ([CallContainerList true;
                  CallContainerLogs containerID true true "200";
                  CallLog "Unable to retrieve log for container";
                  CallCloseClient],
                 (logLines, Some (DockerErr err)))
            | inl (lines, scanErr) =>
                let logLines := logLines ++ (stripHeader <$> lines) in
                match scanErr with
                | Some err =>
                    ([CallContainerList true;
                      CallContainerLogs containerID true true "200";
                      CallLog "Unexpected error while collecting log";
                      CallCloseLogs; CallCloseClient],
                     (logLines, Some (DockerErr err)))
                | None =>
                    ([CallContainerList true;
                      CallContainerLogs containerID true true "200";
                      CallCloseLogs; CallCloseClient],
                     (logLines, None))
                end
            end
      end
  end.

(** The log stream was asked for. *)
Definition is_logs_call (c : call) : bool :=
  match c with CallContainerLogs _ _ _ _ => true | _ => false end.

(** A daemon with the two containers ["/web"] and ["/db"], every log stream
    being the given one. *)
Definition two_containers (stream : list string * option string) : Docker :=
  {| New := None;
     ContainerListAll := ([target "1" "/web"; target "2" "/db"], None);
     ContainerLogs := fun _ => inl stream |}.

Definition is_close_client (c : call) : bool :=
  match c with CallCloseClient => true | _ => false end.

Definition is_close_logs (c : call) : bool :=
  match c with CallCloseLogs => true | _ => false end.

(* ===================================================================== *)
(** * Part II: theorems                                                    *)
(* ===================================================================== *)

(** ** binary64: signs and ranges of the results of the operations

    A finite non-zero number [m * 2^e] is followed through conversion,
    subtraction, multiplication and division by the position
    [digits m + e] of its leading bit; in the range of normal numbers each
    rounding moves it up by at most one. *)

Module F64Facts.
Import F64.
Local Open Scope Z_scope.

Lemma fexp_eq e : fexp prec emax e = Z.max (e - 53) (-1074).
Proof. reflexivity. Qed.

Lemma digits2_pos_bounds p :
  2 ^ (Zpos (digits2_pos p) - 1) <= Zpos p < 2 ^ Zpos (digits2_pos p).
Proof.
  induction p as [p IH|p IH|]; simpl digits2_pos.
  - rewrite Pos2Z.inj_succ.
    replace (Z.succ (Zpos (digits2_pos p)) - 1) with (Z.succ (Zpos (digits2_pos p) - 1)) by lia.
    rewrite !Z.pow_succ_r by lia. lia.
  - rewrite Pos2Z.inj_succ.
    replace (Z.succ (Zpos (digits2_pos p)) - 1) with (Z.succ (Zpos (digits2_pos p) - 1)) by lia.
    rewrite !Z.pow_succ_r by lia. lia.
  - simpl. lia.
Qed.

Lemma Zdigits2_bounds m :
  0 < m -> 1 <= Zdigits2 m /\ 2 ^ (Zdigits2 m - 1) <= m < 2 ^ Zdigits2 m.
Proof.
  destruct m as [|p|p]; try lia. intros _. simpl Zdigits2.
  split; [lia | apply digits2_pos_bounds].
Qed.

Lemma Zdigits2_unique m k :
  2 ^ (k - 1) <= m < 2 ^ k -> 1 <= k -> Zdigits2 m = k.
Proof.
  intros [Hlo Hhi] Hk.
  assert (Hm : 0 < m) by (pose proof (Z.pow_pos_nonneg 2 (k - 1)); lia).
  destruct (Zdigits2_bounds m Hm) as (Hd & Hdlo & Hdhi).
  destruct (Z.lt_trichotomy (Zdigits2 m) k) as [Hlt|[Heq|Hgt]]; [|exact Heq|].
  - assert (2 ^ Zdigits2 m <= 2 ^ (k - 1)) by (apply Z.pow_le_mono_r; lia). lia.
  - assert (2 ^ k <= 2 ^ (Zdigits2 m - 1)) by (apply Z.pow_le_mono_r; lia). lia.
Qed.

Lemma Zdigits2_nonneg m : 0 <= Zdigits2 m.
Proof. destruct m; simpl; lia. Qed.

Lemma Zdigits2_div_pow2 m n :
  0 < m -> 0 <= n <= Zdigits2 m - 1 ->
  0 < m / 2 ^ n /\ Zdigits2 (m / 2 ^ n) = Zdigits2 m - n.
Proof.
  intros Hm Hn.
  destruct (Zdigits2_bounds m Hm) as (Hd & Hlo & Hhi).
  assert (Hp : 0 < 2 ^ n) by (apply Z.pow_pos_nonneg; lia).
  assert (Hlo' : 2 ^ (Zdigits2 m - n - 1) <= m / 2 ^ n).
  { apply Z.div_le_lower_bound; [exact Hp|].
    rewrite <- Z.pow_add_r by lia.
    replace (n + (Zdigits2 m - n - 1)) with (Zdigits2 m - 1) by lia. exact Hlo. }
  assert (Hhi' : m / 2 ^ n < 2 ^ (Zdigits2 m - n)).
  { apply Z.div_lt_upper_bound; [exact Hp|].
    rewrite <- Z.pow_add_r by lia.
    replace (n + (Zdigits2 m - n)) with (Zdigits2 m) by lia. exact Hhi. }
  assert (0 < 2 ^ (Zdigits2 m - n - 1)) by (apply Z.pow_pos_nonneg; lia).
  split; [lia|]. apply Zdigits2_unique; [|lia]. split; assumption.
Qed.

Lemma Zdigits2_succ_le m : 0 < m -> Zdigits2 m <= Zdigits2 (m + 1) <= Zdigits2 m + 1.
Proof.
  intros Hm.
  destruct (Zdigits2_bounds m Hm) as (Hd & Hlo & Hhi).
  destruct (Z.eq_dec (m + 1) (2 ^ Zdigits2 m)) as [Heq|Hne].
  - rewrite (Zdigits2_unique (m + 1) (Zdigits2 m + 1)); [lia| |lia].
    replace (Zdigits2 m + 1 - 1) with (Zdigits2 m) by lia.
    rewrite Z.pow_add_r by lia. simpl (2 ^ 1). lia.
  - rewrite (Zdigits2_unique (m + 1) (Zdigits2 m)); [lia| |lia]. lia.
Qed.

Lemma shr_1_m r : 0 <= shr_m r -> shr_m (shr_1 r) = shr_m r / 2.
Proof.
  destruct r as [m rb sb]. simpl. intros Hm.
  destruct m as [|[p|p|]|p]; cbn [shr_1 shr_m].
  - reflexivity.
  - apply Z.div_unique with (r := 1); lia.
  - apply Z.div_unique with (r := 0); lia.
  - reflexivity.
  - lia.
Qed.

Lemma iter_pos_shr_1_m p : forall r,
  0 <= shr_m r -> shr_m (SpecFloat.iter_pos shr_1 p r) = shr_m r / 2 ^ Zpos p.
Proof.
  assert (Hpow : forall q, 0 < 2 ^ Zpos q) by (intros q; apply Z.pow_pos_nonneg; lia).
  assert (Hdbl : forall q, 2 ^ Zpos q * 2 ^ Zpos q = 2 ^ Zpos q~0).
  { intros q. rewrite <- Z.pow_add_r by lia. f_equal. lia. }
  induction p as [p IH|p IH|]; intros r Hr; simpl SpecFloat.iter_pos.
  - assert (H1 : 0 <= shr_m (shr_1 r)).
    { rewrite shr_1_m by exact Hr. apply Z.div_pos; lia. }
    assert (H2 : 0 <= shr_m (SpecFloat.iter_pos shr_1 p (shr_1 r))).
    { rewrite IH by exact H1. apply Z.div_pos; [exact H1 | apply Hpow]. }
    rewrite IH by exact H2. rewrite IH by exact H1. rewrite shr_1_m by exact Hr.
    pose proof (Hpow p).
    rewrite !Z.div_div by lia. f_equal.
    rewrite Hdbl.
    change (Zpos p~1) with (Z.succ (Zpos p~0)). rewrite Z.pow_succ_r by lia. reflexivity.
  - assert (H2 : 0 <= shr_m (SpecFloat.iter_pos shr_1 p r)).
    { rewrite IH by exact Hr. apply Z.div_pos; [exact Hr | apply Hpow]. }
    rewrite IH by exact H2. rewrite IH by exact Hr.
    pose proof (Hpow p).
    rewrite !Z.div_div by lia. f_equal. apply Hdbl.
  - rewrite shr_1_m by exact Hr. reflexivity.
Qed.

Lemma shr_record_of_loc_m m l : shr_m (shr_record_of_loc m l) = m.
Proof. destruct l as [|[]]; reflexivity. Qed.

Lemma shr_fexp_spec m e l :
  0 <= m ->
  exists r, shr_fexp prec emax m e l = (r, Z.max e (fexp prec emax (Zdigits2 m + e)))
    /\ shr_m r = m / 2 ^ (Z.max e (fexp prec emax (Zdigits2 m + e)) - e).
Proof.
  intros Hm. unfold shr_fexp, shr.
  set (f := fexp prec emax (Zdigits2 m + e)).
  destruct (f - e) as [|p|p] eqn:Hn.
  - exists (shr_record_of_loc m l). rewrite shr_record_of_loc_m.
    replace (Z.max e f) with e by lia. rewrite Z.sub_diag, Z.div_1_r. auto.
  - exists (SpecFloat.iter_pos shr_1 p (shr_record_of_loc m l)).
    replace (Z.max e f) with (e + Zpos p) by lia.
    rewrite iter_pos_shr_1_m by (rewrite shr_record_of_loc_m; exact Hm).
    rewrite shr_record_of_loc_m. replace (e + Zpos p - e) with (Zpos p) by lia. auto.
  - exists (shr_record_of_loc m l). rewrite shr_record_of_loc_m.
    replace (Z.max e f) with e by lia. rewrite Z.sub_diag, Z.div_1_r. auto.
Qed.

Lemma round_nearest_even_bounds m l :
  m <= round_nearest_even m l <= m + 1.
Proof.
  destruct l as [|[]]; simpl; try lia. destruct (Z.even m); lia.
Qed.

Lemma binary_round_aux_normal s mx ex lx :
  0 < mx ->
  -1021 <= Zdigits2 mx + ex <= 1023 ->
  ex <= 971 ->
  exists m e,
    binary_round_aux prec emax s mx ex lx = S754_finite s m e
    /\ Zdigits2 mx + ex <= Zpos (digits2_pos m) + e <= Zdigits2 mx + ex + 1
    /\ Zpos (digits2_pos m) <= 53 /\ ex <= e.
Proof.
  intros Hmx HM Hex. unfold binary_round_aux.
  destruct (Zdigits2_bounds mx Hmx) as (Hd & _).
  destruct (shr_fexp_spec mx ex lx) as (r1 & E1 & M1); [lia|]. rewrite E1.
  rewrite fexp_eq in M1. rewrite fexp_eq.
  set (e1 := Z.max ex (Z.max (Zdigits2 mx + ex - 53) (-1074))) in *.
  destruct (Zdigits2_div_pow2 mx (e1 - ex) Hmx) as (Hm1 & Hd1); [lia|].
  rewrite <- M1 in Hm1, Hd1.
  pose proof (round_nearest_even_bounds (shr_m r1) (loc_of_shr_record r1)) as Hr.
  set (m2 := round_nearest_even (shr_m r1) (loc_of_shr_record r1)) in *.
  assert (Hd2 : Zdigits2 (shr_m r1) <= Zdigits2 m2 <= Zdigits2 (shr_m r1) + 1).
  { destruct (Z.eq_dec m2 (shr_m r1)) as [->|Hne]; [lia|].
    replace m2 with (shr_m r1 + 1) by lia. apply Zdigits2_succ_le. exact Hm1. }
  destruct (shr_fexp_spec m2 e1 loc_Exact) as (r2 & E2 & M2); [lia|]. rewrite E2.
  rewrite fexp_eq in M2.
  set (e2 := Z.max e1 (fexp prec emax (Zdigits2 m2 + e1))) in *.
  assert (He2 : e2 = Z.max e1 (Z.max (Zdigits2 m2 + e1 - 53) (-1074))).
  { unfold e2. rewrite fexp_eq. reflexivity. }
  rewrite <- He2 in M2.
  destruct (Zdigits2_div_pow2 m2 (e2 - e1)) as (Hm3 & Hd3); [lia|lia|].
  rewrite <- M2 in Hm3, Hd3.
  destruct (shr_m r2) as [|m|m] eqn:Hr2; try lia.
  replace (e2 <=? emax - prec) with true by (symmetry; apply Z.leb_le; unfold emax, prec; lia).
  exists m, e2. simpl Zdigits2 in Hd3. repeat split; lia.
Qed.

Lemma Zdigits2_le_of_lt m k : 0 <= m -> 0 <= k -> m < 2 ^ k -> Zdigits2 m <= k.
Proof.
  intros Hm Hk Hlt. destruct (Z.eq_dec m 0) as [->|Hne]; [simpl; lia|].
  destruct (Zdigits2_bounds m) as (Hd & Hlo & _); [lia|].
  destruct (Z_lt_le_dec k (Zdigits2 m)) as [Hgt|]; [|lia].
  assert (2 ^ k <= 2 ^ (Zdigits2 m - 1)) by (apply Z.pow_le_mono_r; lia). lia.
Qed.

Lemma Zdigits2_ge_of_le m k : 0 <= k -> 2 ^ k <= m -> k + 1 <= Zdigits2 m.
Proof.
  intros Hk Hle.
  assert (Hm : 0 < m) by (pose proof (Z.pow_pos_nonneg 2 k); lia).
  destruct (Zdigits2_bounds m Hm) as (Hd & _ & Hhi).
  destruct (Z_lt_le_dec k (Zdigits2 m)) as [|Hge]; [lia|].
  assert (2 ^ Zdigits2 m <= 2 ^ k) by (apply Z.pow_le_mono_r; lia). lia.
Qed.

Lemma Pos_iter_xO_spec d m : Zpos (Pos.iter xO m d) = Zpos m * 2 ^ Zpos d.
Proof.
  induction d as [|d IH] using Pos.peano_ind.
  - simpl. lia.
  - rewrite Pos.iter_succ, Pos2Z.inj_xO, IH, Pos2Z.inj_succ, Z.pow_succ_r by lia. lia.
Qed.

Lemma Zdigits2_mul_pow2 m n : 0 < m -> 0 <= n -> Zdigits2 (m * 2 ^ n) = Zdigits2 m + n.
Proof.
  intros Hm Hn. destruct (Zdigits2_bounds m Hm) as (Hd & Hlo & Hhi).
  assert (0 < 2 ^ n) by (apply Z.pow_pos_nonneg; lia).
  apply Zdigits2_unique; [|lia]. split.
  - replace (Zdigits2 m + n - 1) with (Zdigits2 m - 1 + n) by lia.
    rewrite Z.pow_add_r by lia. apply Z.mul_le_mono_nonneg_r; lia.
  - rewrite Z.pow_add_r by lia. apply Z.mul_lt_mono_pos_r; lia.
Qed.

Lemma shl_align_spec mx ex ex' :
  exists mz, shl_align mx ex ex' = (mz, Z.min ex ex')
    /\ Zpos mz = Zpos mx * 2 ^ (ex - Z.min ex ex').
Proof.
  unfold shl_align. destruct (ex' - ex) as [|d|d] eqn:Hd.
  - exists mx. replace (Z.min ex ex') with ex by lia. rewrite Z.sub_diag. split; [reflexivity|simpl; lia].
  - exists mx. replace (Z.min ex ex') with ex by lia. rewrite Z.sub_diag. split; [reflexivity|simpl; lia].
  - exists (Pos.iter xO mx d). replace (Z.min ex ex') with ex' by lia.
    split; [reflexivity|]. rewrite Pos_iter_xO_spec. f_equal. f_equal. lia.
Qed.

Lemma binary_round_normal s mx ex :
  -1021 <= Zpos (digits2_pos mx) + ex <= 1023 ->
  fin_in s (Zpos (digits2_pos mx) + ex) (Zpos (digits2_pos mx) + ex + 1)
    (binary_round prec emax s mx ex).
Proof.
  intros HM. unfold binary_round.
  destruct (shl_align_spec mx ex (fexp prec emax (Zpos (digits2_pos mx) + ex)))
    as (mz & -> & Hmz).
  rewrite fexp_eq in *.
  set (ez := Z.min ex _) in *.
  assert (Hdz : Zdigits2 (Zpos mz) + ez = Zpos (digits2_pos mx) + ex).
  { rewrite Hmz, Zdigits2_mul_pow2 by lia. simpl Zdigits2. lia. }
  destruct (binary_round_aux_normal s (Zpos mz) ez loc_Exact) as (m & e & -> & Hb & Hc & _);
    [lia|lia|lia|].
  exists m, e. split; [reflexivity|]. lia.
Qed.


Lemma of_Z_pos n k :
  0 < n < 2 ^ k -> 0 <= k <= 1000 -> fin_in false 1 (k + 1) (of_Z n).
Proof.
  intros [Hn Hk] Hkr. destruct n as [|p|p]; try lia.
  unfold of_Z, binary_normalize.
  pose proof (Zdigits2_le_of_lt (Zpos p) k) as Hle. simpl Zdigits2 in Hle.
  destruct (binary_round_normal false p 0) as (m & e & -> & Hb & Hc); [lia|].
  exists m, e. split; [reflexivity|]. lia.
Qed.

Lemma Zdigits2_mul a b :
  0 < a -> 0 < b ->
  Zdigits2 a + Zdigits2 b - 1 <= Zdigits2 (a * b) <= Zdigits2 a + Zdigits2 b.
Proof.
  intros Ha Hb.
  destruct (Zdigits2_bounds a Ha) as (Hda & Hloa & Hhia).
  destruct (Zdigits2_bounds b Hb) as (Hdb & Hlob & Hhib).
  assert (0 < 2 ^ (Zdigits2 a - 1)) by (apply Z.pow_pos_nonneg; lia).
  assert (0 < 2 ^ (Zdigits2 b - 1)) by (apply Z.pow_pos_nonneg; lia).
  split.
  - replace (Zdigits2 a + Zdigits2 b - 1) with ((Zdigits2 a - 1 + (Zdigits2 b - 1)) + 1) by lia.
    apply Zdigits2_ge_of_le; [lia|]. rewrite Z.pow_add_r by lia. nia.
  - apply Zdigits2_le_of_lt; [nia|lia|]. rewrite Z.pow_add_r by lia. nia.
Qed.

Lemma SFmul_range sx sy l1 h1 l2 h2 x y :
  fin_in sx l1 h1 x -> fin_in sy l2 h2 y ->
  -1020 <= l1 + l2 -> h1 + h2 <= 973 ->
  fin_in (xorb sx sy) (l1 + l2 - 1) (h1 + h2 + 1) (mul x y).
Proof.
  intros (mx & ex & -> & Hx & Hcx) (my & ey & -> & Hy & Hcy) Hl Hh.
  unfold mul, SFmul.
  pose proof (Zdigits2_mul (Zpos mx) (Zpos my)) as Hd. simpl Zdigits2 in Hd.
  destruct (binary_round_aux_normal (xorb sx sy) (Zpos (mx * my)) (ex + ey) loc_Exact)
    as (m & e & -> & Hb & Hc & _); simpl Zdigits2; try lia.
  exists m, e. split; [reflexivity|]. simpl Zdigits2 in Hb. lia.
Qed.

Lemma SFdiv_range sx sy l1 h1 l2 h2 x y :
  fin_in sx l1 h1 x -> fin_in sy l2 h2 y ->
  -1021 <= l1 - h2 -> h1 - l2 <= 1022 ->
  fin_in (xorb sx sy) (l1 - h2) (h1 - l2 + 2) (div x y).
Proof.
  intros (mx & ex & -> & Hx & Hcx) (my & ey & -> & Hy & Hcy) Hl Hh.
  unfold div, SFdiv, SFdiv_core_binary. simpl Zdigits2. rewrite fexp_eq.
  set (d1 := Zpos (digits2_pos mx)) in *. set (d2 := Zpos (digits2_pos my)) in *.
  set (e' := Z.min _ (ex - ey)).
  set (m' := match ex - ey - e' with Z0 => Zpos mx | Zpos _ => Z.shiftl (Zpos mx) (ex - ey - e') | Zneg _ => 0 end).
  assert (Hm' : m' = Zpos mx * 2 ^ (ex - ey - e')).
  { unfold m'. destruct (ex - ey - e') as [|p|p] eqn:Hs; try lia.
    rewrite Z.shiftl_mul_pow2 by lia. reflexivity. }
  clearbody m'.
  assert (Hq : Z.div_eucl m' (Zpos my) = (m' / Zpos my, m' mod Zpos my)).
  { unfold Z.div, Z.modulo. destruct (Z.div_eucl m' (Zpos my)). reflexivity. }
  rewrite Hq.
  pose proof (Zdigits2_bounds (Zpos mx) eq_refl) as (_ & Hlo1 & Hhi1).
  pose proof (Zdigits2_bounds (Zpos my) eq_refl) as (_ & Hlo2 & Hhi2).
  simpl Zdigits2 in *. fold d1 in Hlo1, Hhi1. fold d2 in Hlo2, Hhi2.
  set (sh := ex - ey - e') in *.
  assert (Hsh : 0 <= sh /\ d2 - d1 + 53 <= sh) by (unfold sh, e'; lia).
  assert (Hp2 : 0 < 2 ^ (d2 - 1)) by (apply Z.pow_pos_nonneg; lia).
  assert (Hqlo : 2 ^ (d1 + sh - d2 - 1) <= m' / Zpos my).
  { apply Z.div_le_lower_bound; [lia|].
    assert (2 ^ (d1 + sh - 1) <= m').
    { rewrite Hm'. replace (d1 + sh - 1) with (d1 - 1 + sh) by lia.
      rewrite Z.pow_add_r by lia. apply Z.mul_le_mono_nonneg_r; [|lia].
      apply Z.pow_nonneg; lia. }
    assert (Zpos my * 2 ^ (d1 + sh - d2 - 1) <= 2 ^ d2 * 2 ^ (d1 + sh - d2 - 1)).
    { apply Z.mul_le_mono_nonneg_r; [apply Z.pow_nonneg|]; lia. }
    rewrite <- Z.pow_add_r in H0 by lia.
    replace (d2 + (d1 + sh - d2 - 1)) with (d1 + sh - 1) in H0 by lia. lia. }
  assert (Hqhi : m' / Zpos my < 2 ^ (d1 + sh - d2 + 1)).
  { apply Z.div_lt_upper_bound; [lia|].
    assert (m' < 2 ^ (d1 + sh)).
    { rewrite Hm', Z.pow_add_r by lia. apply Z.mul_lt_mono_pos_r; [|lia].
      apply Z.pow_pos_nonneg; lia. }
    assert (2 ^ (d2 - 1) * 2 ^ (d1 + sh - d2 + 1) <= Zpos my * 2 ^ (d1 + sh - d2 + 1)).
    { apply Z.mul_le_mono_nonneg_r; [apply Z.pow_nonneg|]; lia. }
    rewrite <- Z.pow_add_r in H0 by lia.
    replace (d2 - 1 + (d1 + sh - d2 + 1)) with (d1 + sh) in H0 by lia. lia. }
  set (q := m' / Zpos my) in *.
  assert (Hq0 : 0 < q).
  { pose proof (Z.pow_pos_nonneg 2 (d1 + sh - d2 - 1)). lia. }
  assert (Hdq : d1 + sh - d2 <= Zdigits2 q <= d1 + sh - d2 + 1).
  { split.
    - replace (d1 + sh - d2) with (d1 + sh - d2 - 1 + 1) by lia.
      apply Zdigits2_ge_of_le; [lia|exact Hqlo].
    - apply Zdigits2_le_of_lt; [lia|lia|exact Hqhi]. }
  destruct (binary_round_aux_normal (xorb sx sy) q e' (new_location (Zpos my) (m' mod Zpos my)))
    as (m & e & -> & Hb & Hc & _); try (unfold sh in *; lia).
  exists m, e. split; [reflexivity|]. unfold sh in *. lia.
Qed.

Lemma fin_in_weaken s lo hi lo' hi' x :
  fin_in s lo hi x -> lo' <= lo -> hi <= hi' -> fin_in s lo' hi' x.
Proof.
  intros (m & e & -> & Hb & Hc) Hlo Hhi. exists m, e. split; [reflexivity|]. lia.
Qed.

Lemma SFsub_range l h x y :
  nonneg_in l h x -> nonneg_in l h y -> -969 <= l -> h <= 1023 ->
  sub x y = S754_zero false
  \/ exists s, fin_in s (l - 52) (h + 1) (sub x y).
Proof.
  intros [->|(mx & ex & -> & Hx & Hcx)] [->|(my & ey & -> & Hy & Hcy)] Hl Hh.
  - left. reflexivity.
  - right. exists true. exists my, ey. split; [reflexivity|]. lia.
  - right. exists false. exists mx, ex. split; [reflexivity|]. lia.
  - unfold sub. cbn [SFsub cond_Zopp].
    set (ez := Z.min ex ey).
    destruct (shl_align_spec mx ex ez) as (ma & -> & Ha).
    destruct (shl_align_spec my ey ez) as (mb & -> & Hb).
    cbn [fst]. replace (Z.min ex ez) with ez in Ha by lia.
    replace (Z.min ey ez) with ez in Hb by lia.
    pose proof (Zdigits2_bounds (Zpos mx) eq_refl) as (_ & _ & Hhi1).
    pose proof (Zdigits2_bounds (Zpos my) eq_refl) as (_ & _ & Hhi2).
    simpl Zdigits2 in Hhi1, Hhi2.
    assert (Hpa : Zpos ma < 2 ^ (h - ez)).
    { rewrite Ha. apply Z.lt_le_trans with (2 ^ Zpos (digits2_pos mx) * 2 ^ (ex - ez)).
      - apply Z.mul_lt_mono_pos_r; [apply Z.pow_pos_nonneg; lia|exact Hhi1].
      - rewrite <- Z.pow_add_r by lia. apply Z.pow_le_mono_r; lia. }
    assert (Hpb : Zpos mb < 2 ^ (h - ez)).
    { rewrite Hb. apply Z.lt_le_trans with (2 ^ Zpos (digits2_pos my) * 2 ^ (ey - ez)).
      - apply Z.mul_lt_mono_pos_r; [apply Z.pow_pos_nonneg; lia|exact Hhi2].
      - rewrite <- Z.pow_add_r by lia. apply Z.pow_le_mono_r; lia. }
    assert (Hez : l - 53 <= ez) by lia.
    destruct (Zpos ma - Zpos mb) as [|d|d] eqn:Hd; cbn [binary_normalize].
    + left. reflexivity.
    + right. exists false.
      pose proof (Zdigits2_le_of_lt (Zpos d) (h - ez)) as Hdd. simpl Zdigits2 in Hdd.
      eapply fin_in_weaken; [apply binary_round_normal| |]; lia.
    + right. exists true.
      pose proof (Zdigits2_le_of_lt (Zpos d) (h - ez)) as Hdd. simpl Zdigits2 in Hdd.
      eapply fin_in_weaken; [apply binary_round_normal| |]; lia.
Qed.

Lemma of_Z_nonneg_in n k :
  0 <= n < 2 ^ k -> 0 <= k <= 1000 -> nonneg_in 1 (k + 1) (of_Z n).
Proof.
  intros [Hn Hk] Hkr. destruct (Z.eq_dec n 0) as [->|Hne].
  - left. reflexivity.
  - right. apply of_Z_pos; lia.
Qed.

Lemma binary_round_aux_sign s mx ex lx :
  match binary_round_aux prec emax s mx ex lx with
  | S754_zero s' | S754_infinity s' | S754_finite s' _ _ => s' = s
  | S754_nan => True
  end.
Proof.
  unfold binary_round_aux.
  destruct (shr_fexp prec emax mx ex lx) as [r1 e1].
  destruct (shr_fexp prec emax _ e1 loc_Exact) as [r2 e2].
  destruct (shr_m r2); [reflexivity| |exact I].
  destruct (e2 <=? emax - prec); reflexivity.
Qed.

Lemma of_Z_nonpos_not_positive n : n <= 0 -> ltb zero (of_Z n) = false.
Proof.
  intros Hn. destruct n as [|p|p]; [reflexivity|lia|].
  unfold of_Z, binary_normalize, binary_round.
  destruct (shl_align p 0 _) as [mz ez].
  pose proof (binary_round_aux_sign true (Zpos mz) ez loc_Exact) as Hs.
  destruct (binary_round_aux prec emax true (Zpos mz) ez loc_Exact) as [s'|s'| |s' m e];
    try (rewrite Hs); reflexivity.
Qed.

Lemma of_Z_100 : fin_in false 7 7 (of_Z 100).
Proof.
  exists 7036874417766400%positive, (-46). split; [reflexivity|].
  change (digits2_pos 7036874417766400) with 53%positive. lia.
Qed.

Lemma fin_in_is_finite s lo hi x : fin_in s lo hi x -> is_finite x = true.
Proof. intros (m & e & -> & _). reflexivity. Qed.

Lemma fin_in_positive lo hi x :
  fin_in false lo hi x ->
  leb x zero = false /\ ltb zero x = true /\ leb zero x = true.
Proof. intros (m & e & -> & _). repeat split. Qed.

Lemma fin_in_negative lo hi x : fin_in true lo hi x -> ltb x zero = true.
Proof. intros (m & e & -> & _). reflexivity. Qed.

Lemma sub_zero_r lo hi x : nonneg_in lo hi x -> sub x (of_Z 0) = x.
Proof. intros [->|(m & e & -> & _)]; reflexivity. Qed.

Lemma div_zero_l s lo hi y : fin_in s lo hi y -> div zero y = S754_zero s.
Proof. intros (m & e & -> & _). reflexivity. Qed.

Lemma mul_zero_l s lo hi y : fin_in false lo hi y -> mul (S754_zero s) y = S754_zero s.
Proof. intros (m & e & -> & _). destruct s; reflexivity. Qed.

(** Integers below [2^53] convert exactly, and the difference of two of them
    has the sign of the integer difference. *)
Lemma shr_fexp_id m e l :
  fexp prec emax (Zdigits2 m + e) <= e ->
  shr_fexp prec emax m e l = (shr_record_of_loc m l, e).
Proof.
  intros H. unfold shr_fexp, shr.
  destruct (fexp prec emax (Zdigits2 m + e) - e) eqn:E; try reflexivity. lia.
Qed.

Lemma binary_round_aux_exact s m e :
  fexp prec emax (Zpos (digits2_pos m) + e) <= e -> e <= 971 ->
  binary_round_aux prec emax s (Zpos m) e loc_Exact = S754_finite s m e.
Proof.
  intros Hc He. unfold binary_round_aux.
  rewrite (shr_fexp_id (Zpos m) e loc_Exact Hc). cbn [shr_record_of_loc shr_m loc_of_shr_record round_nearest_even].
  rewrite (shr_fexp_id (Zpos m) e loc_Exact Hc). cbn [shr_record_of_loc shr_m].
  replace (e <=? emax - prec) with true; [reflexivity|].
  symmetry. apply Z.leb_le. unfold emax, prec. lia.
Qed.

Lemma of_Z_small n :
  0 < n < 2 ^ 53 ->
  exists m e, of_Z n = S754_finite false m e /\ -52 <= e <= 0 /\ Zpos m = n * 2 ^ (- e).
Proof.
  intros [Hn Hlt]. destruct n as [|p|p]; try lia.
  pose proof (Zdigits2_le_of_lt (Zpos p) 53 ltac:(lia) ltac:(lia) Hlt) as Hd.
  simpl Zdigits2 in Hd.
  unfold of_Z, binary_normalize, binary_round.
  destruct (shl_align_spec p 0 (fexp prec emax (Zpos (digits2_pos p) + 0)))
    as (mz & -> & Hmz).
  rewrite fexp_eq in *.
  set (ez := Z.min 0 _) in *.
  assert (Hez : ez = Zpos (digits2_pos p) - 53) by (unfold ez; lia).
  assert (Hdz : Zpos (digits2_pos mz) = 53).
  { change (Zpos (digits2_pos mz)) with (Zdigits2 (Zpos mz)).
    rewrite Hmz, Zdigits2_mul_pow2 by lia. simpl Zdigits2. lia. }
  rewrite binary_round_aux_exact by (try rewrite fexp_eq; lia).
  exists mz, ez. split; [reflexivity|]. split; [lia|].
  replace (- ez) with (0 - ez) by lia. exact Hmz.
Qed.

Lemma sub_negative u c :
  0 <= u < c -> c < 2 ^ 53 -> ltb (sub (of_Z u) (of_Z c)) zero = true.
Proof.
  intros Hu Hc.
  destruct (of_Z_small c ltac:(lia)) as (mc & ec & Ec & Hec & Vc).
  destruct (Z.eq_dec u 0) as [->|Hu0].
  { rewrite Ec. reflexivity. }
  destruct (of_Z_small u ltac:(lia)) as (mu & eu & Eu & Heu & Vu).
  rewrite Eu, Ec. unfold sub. cbn [SFsub cond_Zopp].
  set (ez := Z.min eu ec).
  destruct (shl_align_spec mu eu ez) as (ma & -> & Ha).
  destruct (shl_align_spec mc ec ez) as (mb & -> & Hb).
  cbn [fst]. replace (Z.min eu ez) with ez in Ha by lia.
  replace (Z.min ec ez) with ez in Hb by lia.
  assert (Ea : Zpos ma = u * 2 ^ (- ez)).
  { rewrite Ha, Vu, <- Z.mul_assoc, <- Z.pow_add_r by lia. f_equal. f_equal. lia. }
  assert (Eb : Zpos mb = c * 2 ^ (- ez)).
  { rewrite Hb, Vc, <- Z.mul_assoc, <- Z.pow_add_r by lia. f_equal. f_equal. lia. }
  assert (Hp : 0 < 2 ^ (- ez)) by (apply Z.pow_pos_nonneg; lia).
  assert (Hlt : Zpos ma - Zpos mb < 0) by (rewrite Ea, Eb; nia).
  destruct (Zpos ma - Zpos mb) as [|d|d] eqn:Hd; try lia.
  cbn [binary_normalize].
  assert (Hdig : Zpos (digits2_pos d) <= 53 - ez).
  { change (Zpos (digits2_pos d)) with (Zdigits2 (Zpos d)).
    apply Zdigits2_le_of_lt; [lia|lia|].
    assert (Zpos d < c * 2 ^ (- ez)) by lia.
    assert (c * 2 ^ (- ez) < 2 ^ 53 * 2 ^ (- ez)) by (apply Z.mul_lt_mono_pos_r; lia).
    replace (53 - ez) with (53 + - ez) by lia. rewrite Z.pow_add_r by lia. lia. }
  destruct (binary_round_normal true d ez) as (m & e & -> & _); [lia|].
  reflexivity.
Qed.

End F64Facts.

(** ** Metric calculator *)

Section Calculator.
Import F64 F64Facts.
Local Open Scope Z_scope.

Lemma sub64_exact a b : 0 <= a - b < 2 ^ 64 -> sub64 a b = a - b.
Proof. intros H. unfold sub64. apply Z.mod_small. exact H. Qed.

Lemma sub64_wrapped a b : - 2 ^ 64 <= a - b < 0 -> sub64 a b = a - b + 2 ^ 64.
Proof.
  intros H. unfold sub64. symmetry.
  apply Z.mod_unique with (q := -1); lia.
Qed.

(** The guard of [calculateCPUPercent] lets a pair through exactly when the
    wrapped system delta and the number of CPUs are not zero. *)
Lemma calculateCPUPercent_guard current previous :
  container.wf current -> container.wf previous ->
  calculateCPUPercent current previous =
    if decide (sub64 (container.SystemUsage (container.CPUStats_ current))
                     (container.SystemUsage (container.CPUStats_ previous)) = 0
               \/ onlineUnits current = 0)
    then zero
    else mul (mul (div (of_Z (sub64 (container.TotalUsage (container.CPUUsage_ (container.CPUStats_ current)))
                                    (container.TotalUsage (container.CPUUsage_ (container.CPUStats_ previous)))))
                       (of_Z (sub64 (container.SystemUsage (container.CPUStats_ current))
                                    (container.SystemUsage (container.CPUStats_ previous)))))
                  (of_Z (onlineUnits current)))
             (of_Z 100).
Proof.
  intros (_ & _ & Hc & _) _. unfold calculateCPUPercent, onlineUnits, uint32 in *.
  set (sd := sub64 (container.SystemUsage _) (container.SystemUsage _)).
  assert (Hsd : 0 <= sd < 2 ^ 64) by (apply Z.mod_pos_bound; lia).
  set (cpus := container.OnlineCPUs _) in *.
  destruct (decide (sd = 0 \/ cpus = 0)) as [[->| ->]|Hne].
  - reflexivity.
  - rewrite orb_true_r. reflexivity.
  - destruct (fin_in_positive 1 65 (of_Z sd)) as (-> & _); [apply (of_Z_pos sd 64); lia|].
    destruct (fin_in_positive 1 33 (of_Z cpus)) as (-> & _); [apply (of_Z_pos cpus 32); lia|].
    reflexivity.
Qed.

(** The expression of line 45 over a delta below [2^64], a non-zero system
    delta and a non-zero CPU count is [+0.0] or a positive finite number. *)
Lemma cpuPercent_range d s c :
  0 <= d < 2 ^ 64 -> 0 < s < 2 ^ 64 -> 0 < c < 2 ^ 32 ->
  nonneg_in (-64) 108 (mul (mul (div (of_Z d) (of_Z s)) (of_Z c)) (of_Z 100)).
Proof.
  intros Hd Hs Hc.
  pose proof (of_Z_pos s 64 ltac:(lia) ltac:(lia)) as Fs.
  pose proof (of_Z_pos c 32 ltac:(lia) ltac:(lia)) as Fc.
  destruct (Z.eq_dec d 0) as [->|Hd0].
  - left. change (of_Z 0) with zero.
    rewrite (div_zero_l _ _ _ _ Fs), (mul_zero_l _ _ _ _ Fc).
    apply (mul_zero_l _ _ _ _ of_Z_100).
  - right.
    pose proof (of_Z_pos d 64 ltac:(lia) ltac:(lia)) as Fd.
    pose proof (SFdiv_range _ _ _ _ _ _ _ _ Fd Fs ltac:(lia) ltac:(lia)) as Fq.
    pose proof (SFmul_range _ _ _ _ _ _ _ _ Fq Fc ltac:(lia) ltac:(lia)) as Fm.
    pose proof (SFmul_range _ _ _ _ _ _ _ _ Fm of_Z_100 ltac:(lia) ltac:(lia)) as Fr.
    eapply fin_in_weaken; [exact Fr|simpl; lia..].
Qed.

(** C4, as amended: for every pair of snapshots with [systemDelta > 0],
    [onlineUnits > 0] and a CPU counter that did not decrease
    ([cpuDelta >= 0]), [calculateCPUPercent] returns
    [(cpuDelta / systemDelta) * onlineUnits * 100] computed in binary64, and
    that value is finite and non-negative. *)
Theorem calculateCPUPercent_formula current previous :
  container.wf current -> container.wf previous ->
  0 < systemDelta current previous ->
  0 < onlineUnits current ->
  0 <= cpuDelta current previous ->
  calculateCPUPercent current previous = spec_cpuPercent current previous
  /\ is_finite (calculateCPUPercent current previous) = true
  /\ leb zero (calculateCPUPercent current previous) = true.
Proof.
  intros Wc Wp Hs Hc Hd.
  assert (E : calculateCPUPercent current previous = spec_cpuPercent current previous).
  { rewrite (calculateCPUPercent_guard _ _ Wc Wp).
    destruct Wc as (Wc1 & Wc2 & Wc3 & _), Wp as (Wp1 & Wp2 & _).
    unfold spec_cpuPercent, cpuDelta, systemDelta, onlineUnits, uint64, uint32 in *.
    rewrite !sub64_exact by lia.
    destruct (decide _) as [[H|H]|_]; [lia|lia|reflexivity]. }
  split; [exact E|]. rewrite E.
  destruct Wc as (Wc1 & Wc2 & Wc3 & _), Wp as (Wp1 & Wp2 & _).
  unfold spec_cpuPercent, cpuDelta, systemDelta, onlineUnits, uint64, uint32 in *.
  destruct (cpuPercent_range
              (container.TotalUsage (container.CPUUsage_ (container.CPUStats_ current))
               - container.TotalUsage (container.CPUUsage_ (container.CPUStats_ previous)))
              (container.SystemUsage (container.CPUStats_ current)
               - container.SystemUsage (container.CPUStats_ previous))
              (container.OnlineCPUs (container.CPUStats_ current)))
    as [->|F]; [lia|lia|lia|split; reflexivity|].
  split; [exact (fin_in_is_finite _ _ _ _ F)|].
  apply (fin_in_positive _ _ _ F).
Qed.

Lemma snapshot_wf cpu system cpus usage limit stats :
  uint64 cpu -> uint64 system -> uint32 cpus -> uint64 usage -> uint64 limit ->
  map_Forall (fun _ v => uint64 v) stats ->
  container.wf (snapshot cpu system cpus usage limit stats).
Proof.
  intros H1 H2 H3 H4 H5 H6.
  exact (conj H1 (conj H2 (conj H3 (conj H4 (conj H5 H6))))).
Qed.

(** The example of the specification: CPU time 100 -> 150, system time
    1000 -> 1100, two CPUs, gives 100.0. *)
Lemma calculateCPUPercent_formula_witness :
  calculateCPUPercent (snapshot 150 1100 2 80 100 {[ "cache" := 10 ]})
                      (snapshot 100 1000 2 80 100 {[ "cache" := 10 ]})
    = of_Z 100
  /\ is_finite (of_Z 100) = true.
Proof.
  destruct (calculateCPUPercent_formula
              (snapshot 150 1100 2 80 100 {[ "cache" := 10 ]})
              (snapshot 100 1000 2 80 100 {[ "cache" := 10 ]}))
    as (E & F & _).
  - apply snapshot_wf; try (unfold uint64, uint32; lia).
    apply map_Forall_singleton. unfold uint64. lia.
  - apply snapshot_wf; try (unfold uint64, uint32; lia).
    apply map_Forall_singleton. unfold uint64. lia.
  - vm_compute. reflexivity.
  - vm_compute. reflexivity.
  - vm_compute. discriminate.
  - split; [rewrite E; vm_compute; reflexivity | reflexivity].
Defined.

(** Counterexample to C4 as stated: the CPU counter goes back from 100 to 50
    while the system counter advances by 100 on one CPU. The formula of the
    claim gives -50.0; the code subtracts in [uint64], the delta wraps to
    [2^64 - 50], and the result is [2^64]. *)
Lemma calculateCPUPercent_cpu_counter_reset :
  let current := snapshot 50 1100 1 0 0 ∅ in
  let previous := snapshot 100 1000 1 0 0 ∅ in
  0 < systemDelta current previous
  /\ 0 < onlineUnits current
  /\ cpuDelta current previous = -50
  /\ spec_cpuPercent current previous = S754_finite true 7036874417766400 (-47)
  /\ calculateCPUPercent current previous = S754_finite false 4503599627370496 12
  /\ calculateCPUPercent current previous <> spec_cpuPercent current previous.
Proof. vm_compute. repeat split; discriminate. Qed.

(** C2, at the failing input: the system counter goes back from 1000 to 500
    (a reset), so [systemDelta = -500 <= 0] and the claim asks for [0.0]; the
    code's [uint64] subtraction wraps to [2^64 - 500], the guard
    [systemDelta <= 0.0] does not fire, and a non-zero value is returned. *)
Theorem calculateCPUPercent_system_counter_reset :
  let current := snapshot 100 500 1 0 0 ∅ in
  let previous := snapshot 0 1000 1 0 0 ∅ in
  systemDelta current previous = -500
  /\ sub64 (container.SystemUsage (container.CPUStats_ current))
           (container.SystemUsage (container.CPUStats_ previous)) = 2 ^ 64 - 500
  /\ calculateCPUPercent current previous = S754_finite false 5497558138880000 (-103)
  /\ calculateCPUPercent current previous <> zero.
Proof. vm_compute. repeat split; discriminate. Qed.

(** The memory usage of lines 86-90 is the binary64 difference of usage and
    cache. *)
Lemma memUsageOf_formula current :
  container.wf current ->
  memUsageOf current
  = sub (of_Z (memoryUsageBytes current)) (of_Z (memoryCacheBytes current)).
Proof.
  intros (_ & _ & _ & Hu & _). unfold memUsageOf, memoryUsageBytes, memoryCacheBytes.
  destruct (container.Stats _ !! "cache") as [cache|]; simpl; [reflexivity|].
  symmetry. apply (sub_zero_r 1 65). apply (of_Z_nonneg_in _ 64); [exact Hu|lia].
Qed.

(** C5: for every snapshot with [memoryLimitBytes > 0] the memory percentage
    equals [((memoryUsageBytes - memoryCacheBytes) / memoryLimitBytes) * 100.0]
    computed in binary64, and a negative usage is not clamped: whenever the
    usage left after subtracting the cache is negative, as it is when the
    cache is larger than the usage (both below [2^53] bytes), the percentage
    is negative as well. *)
Theorem memPercentOf_formula current :
  container.wf current ->
  0 < memoryLimitBytes current ->
  memPercentOf current = spec_memPercent current
  /\ (ltb (memUsageOf current) zero = true ->
      ltb (memPercentOf current) zero = true)
  /\ (memoryUsageBytes current < memoryCacheBytes current < 2 ^ 53 ->
      ltb (memPercentOf current) zero = true).
Proof.
  intros W Hl.
  enough (G : memPercentOf current = spec_memPercent current
              /\ (ltb (memUsageOf current) zero = true ->
                  ltb (memPercentOf current) zero = true)).
  { destruct G as (E & N). split; [exact E|]. split; [exact N|].
    intros [Hlt Hc]. apply N. rewrite (memUsageOf_formula current W).
    apply sub_negative; [|exact Hc]. split; [|exact Hlt].
    destruct W as (_ & _ & _ & Hu & _). apply Hu. }
  pose proof (memUsageOf_formula current W) as EU.
  destruct W as (_ & _ & _ & Hu & Hlim & Hst).
  unfold memoryLimitBytes, uint64 in *.
  pose proof (of_Z_pos _ 64 (conj Hl (proj2 Hlim)) ltac:(lia)) as Fl.
  assert (E : memPercentOf current = spec_memPercent current).
  { unfold memPercentOf, spec_memPercent, memoryLimitBytes.
    destruct (fin_in_positive _ _ _ Fl) as (_ & -> & _). rewrite EU. reflexivity. }
  split; [exact E|]. intros Hneg. rewrite E. unfold spec_memPercent, memoryLimitBytes.
  rewrite EU in Hneg. unfold memoryUsageBytes in *.
  assert (Fc : nonneg_in 1 65 (of_Z (memoryCacheBytes current))).
  { unfold memoryCacheBytes.
    destruct (container.Stats _ !! "cache") as [cache|] eqn:Hc; simpl.
    - apply (of_Z_nonneg_in _ 64); [exact (Hst _ _ Hc)|lia].
    - left. reflexivity. }
  pose proof (of_Z_nonneg_in _ 64 Hu ltac:(lia)) as Fu.
  destruct (SFsub_range 1 65 _ _ Fu Fc ltac:(lia) ltac:(lia)) as [Hz|[s Fs]].
  { rewrite Hz in Hneg. discriminate. }
  destruct s; [|destruct Fs as (m & e & Es & _); rewrite Es in Hneg; discriminate].
  pose proof (SFdiv_range _ _ _ _ _ _ _ _ Fs Fl ltac:(lia) ltac:(lia)) as Fq.
  pose proof (SFmul_range _ _ _ _ _ _ _ _ Fq of_Z_100 ltac:(lia) ltac:(lia)) as Fr.
  exact (fin_in_negative _ _ _ Fr).
Qed.

(** Usage 10, cache 30, limit 100 give -20.0. *)
Lemma memPercentOf_formula_witness :
  memPercentOf (snapshot 0 0 1 10 100 {[ "cache" := 30 ]})
    = S754_finite true 5629499534213120 (-48)
  /\ ltb (memPercentOf (snapshot 0 0 1 10 100 {[ "cache" := 30 ]})) zero = true.
Proof.
  destruct (memPercentOf_formula (snapshot 0 0 1 10 100 {[ "cache" := 30 ]}))
    as (E & N & _).
  - apply snapshot_wf; try (unfold uint64, uint32; lia).
    apply map_Forall_singleton. unfold uint64. lia.
  - vm_compute. reflexivity.
  - split; [rewrite E; vm_compute; reflexivity | apply N; vm_compute; reflexivity].
Defined.

(** C6: for every snapshot with [memoryLimitBytes <= 0] the memory percentage
    is exactly [0.0], whatever the usage and the cache are. *)
Theorem memPercentOf_without_limit current :
  memoryLimitBytes current <= 0 ->
  memPercentOf current = zero.
Proof.
  intros Hl. unfold memPercentOf, memoryLimitBytes in *.
  rewrite (of_Z_nonpos_not_positive _ Hl). reflexivity.
Qed.

(** No limit reported: 0.0, although 70 bytes are in use. *)
Lemma memPercentOf_without_limit_witness :
  memPercentOf (snapshot 0 0 1 80 0 {[ "cache" := 10 ]}) = zero.
Proof.
  apply memPercentOf_without_limit. vm_compute. discriminate.
Defined.

End Calculator.

(** ** [strings.TrimPrefix] on names *)

Lemma substring_all s : String.substring 0 (String.length s) s = s.
Proof. induction s as [|a s IH]; simpl; [reflexivity|]. rewrite IH. reflexivity. Qed.

Lemma TrimPrefix_separator rest : TrimPrefix (String "/" rest) "/" = rest.
Proof.
  unfold TrimPrefix, HasPrefix. simpl.
  destruct rest; simpl; rewrite ?Nat.sub_0_r, ?substring_all; reflexivity.
Qed.

Lemma TrimPrefix_runtime_name name :
  runtime_name name -> name = String "/" (TrimPrefix name "/")
                       /\ HasPrefix (TrimPrefix name "/") "/" = false.
Proof.
  intros (rest & -> & Hrest). rewrite TrimPrefix_separator. split; [reflexivity|exact Hrest].
Qed.

(** ** Per-target sampler *)

Section Sampler.
Variable cli : nat -> fetched.
Variable interval : Z.
Variable containerSummary : container.Summary.

Lemma collectStats_named name rest :
  container.Names containerSummary = name :: rest ->
  result (collectStats cli interval containerSummary) = Some tt
  /\ sends (trace (collectStats cli interval containerSummary))
     = [ {[ sample_key cli name := sample_value cli ]} ].
Proof.
  intros HN. unfold collectStats, sendError, sample_key, sample_value, failed.
  rewrite HN.
  destruct (cli 0%nat) as [|[|previous]]; try (split; reflexivity).
  destruct (cli 1%nat) as [|[|current]]; split; reflexivity.
Qed.

(** C7, as amended: for a target whose [Names] list is not empty, on every
    path [collectStats] returns without a panic after exactly one send: the
    sentinel, with no sleep, when the first fetch or decode fails; the
    sentinel when the second fails; the [{cpu, mem}] result otherwise. *)
Theorem collectStats_one_result :
  container.Names containerSummary <> [] ->
  result (collectStats cli interval containerSummary) = Some tt
  /\ length (sends (trace (collectStats cli interval containerSummary))) = 1%nat
  /\ match cli 0%nat with
     | Body (Decoded previous) =>
         match cli 1%nat with
         | Body (Decoded current) =>
             exists key,
               sends (trace (collectStats cli interval containerSummary))
               = [ {[ key := metrics (calculateCPUPercent current previous)
                                     (memPercentOf current) ]} ]
         | _ =>
             exists key,
               sends (trace (collectStats cli interval containerSummary))
               = [ {[ key := sentinel ]} ]
         end
     | _ =>
         (exists key,
            sends (trace (collectStats cli interval containerSummary))
            = [ {[ key := sentinel ]} ])
         /\ Forall (fun e => is_sleep e = false)
                   (trace (collectStats cli interval containerSummary))
     end.
Proof.
  intros HN. destruct (container.Names containerSummary) as [|name rest] eqn:E; [done|].
  destruct (collectStats_named name rest E) as (R & S).
  split; [exact R|]. split; [rewrite S; reflexivity|].
  clear R S. unfold collectStats, sendError. rewrite E.
  destruct (cli 0%nat) as [|[|previous]].
  - split; [exists name; reflexivity|]. repeat constructor.
  - split; [exists name; reflexivity|]. repeat constructor.
  - destruct (cli 1%nat) as [|[|current]]; eexists; reflexivity.
Qed.

(** C10: [collectStats] indexes [Names[0]] on the sentinel paths and on the
    success path alike, so for a summary with an empty [Names] list every
    execution ends in the out-of-range panic and nothing is sent. *)
Theorem collectStats_empty_names :
  container.Names containerSummary = [] ->
  result (collectStats cli interval containerSummary) = None
  /\ sends (trace (collectStats cli interval containerSummary)) = [].
Proof.
  intros HN. unfold collectStats, sendError. rewrite HN.
  destruct (cli 0%nat) as [|[|previous]]; try (split; reflexivity).
  destruct (cli 1%nat) as [|[|current]]; split; reflexivity.
Qed.

End Sampler.

(** A body that does not decode: one sentinel, no panic. *)
Lemma collectStats_one_result_witness :
  result (collectStats (fun _ => Body DecodeErr) 1 (target "1" "/web")) = Some tt
  /\ length (sends (trace (collectStats (fun _ => Body DecodeErr) 1 (target "1" "/web")))) = 1%nat.
Proof.
  destruct (collectStats_one_result (fun _ => Body DecodeErr) 1 (target "1" "/web"))
    as (R & L & _); [simpl; discriminate|].
  split; [exact R|exact L].
Defined.

(** Counterexample to C7 as stated: a summary without names whose first
    fetch fails. The sentinel is never sent: building it panics. *)
Lemma collectStats_no_name_no_result :
  let run := collectStats (fun _ => FetchErr) 1
               {| container.ID := "1"; container.Names := [] |} in
  result run = None /\ sends (trace run) = [] /\ trace run = [EvStats "1"; EvDone].
Proof. repeat split. Qed.

(** Without a name even two good snapshots end in the panic. *)
Lemma collectStats_empty_names_witness :
  let ok := Body (Decoded (snapshot 100 1000 2 80 100 ∅)) in
  result (collectStats (fun _ => ok) 1
            {| container.ID := "1"; container.Names := [] |}) = None.
Proof.
  intros ok.
  apply (collectStats_empty_names (fun _ => ok) 1
           {| container.ID := "1"; container.Names := [] |}).
  reflexivity.
Defined.

(** C3, at the failing input: the target ["/web"] whose first fetch fails is
    reported under the key ["/web"]; its display name, and the key the
    success path uses, is ["web"]. *)
Theorem sentinel_key_not_stripped :
  let run := collectStats (fun _ => FetchErr) 1 (target "1" "/web") in
  sends (trace run) = [ {[ "/web" := sentinel ]} ]
  /\ displayName (target "1" "/web") = Some "web"
  /\ (forall r : gmap string spec_float,
        sends (trace run) <> [ {[ "web" := r ]} ]).
Proof.
  intros run.
  assert (E : sends (trace run) = [ {[ "/web" := sentinel ]} ]) by reflexivity.
  split; [exact E|]. split; [reflexivity|].
  intros r H. rewrite E in H. apply (f_equal head) in H.
  change (Some ({[ "/web" := sentinel ]} : gmap string (gmap string spec_float))
          = Some {[ "web" := r ]}) in H.
  apply (inj Some) in H.
  assert (K : ({[ "/web" := sentinel ]} : gmap string (gmap string spec_float)) !! "web"
              = Some r) by (rewrite H; apply lookup_singleton_eq).
  rewrite lookup_singleton_ne in K; discriminate.
Qed.

(** ** Orchestrator *)

Lemma result_bind {A B} (m : Go A) (k : A -> Go B) :
  result (bind m k) = result m ≫= (fun a => result (k a)).
Proof.
  destruct m as [tr [a|]]; simpl; [|reflexivity].
  destruct (k a) as [tr' r]. reflexivity.
Qed.

(** C8: when the client cannot be created or the listing fails,
    [GetContainerStats] returns before any sampling starts and the store is
    the one it was called with. *)
Theorem GetContainerStats_listing_failure w Cstats :
  client_New w = false \/ ContainerList w = None ->
  result (GetContainerStats w Cstats) = Some Cstats
  /\ Forall (fun e => is_sampling e = false) (trace (GetContainerStats w Cstats)).
Proof.
  intros H. unfold GetContainerStats.
  destruct (client_New w) eqn:Hc; simpl.
  - destruct H as [H| ->]; [discriminate|]. simpl. split; [reflexivity|].
    repeat constructor.
  - split; [reflexivity|]. repeat constructor.
Qed.

(** A failed listing leaves a populated store as it was. *)
Lemma GetContainerStats_listing_failure_witness :
  let w := {| client_New := true; ContainerList := None;
              ContainerStats_ := fun _ _ => FetchErr; arrival := [] |} in
  let Cstats := {| Interval := 1;
                   Stats := {[ "web" := metrics (F64.of_Z 100) (F64.of_Z 70) ]} |} in
  result (GetContainerStats w Cstats) = Some Cstats.
Proof.
  intros w Cstats.
  apply (GetContainerStats_listing_failure w Cstats).
  right. reflexivity.
Defined.

Lemma metrics_not_sentinel cpuPercent memPercent :
  ~ is_sentinel (metrics cpuPercent memPercent).
Proof.
  unfold is_sentinel, metrics, sentinel. intros H.
  apply (f_equal (fun m : gmap string spec_float => m !! "cpu")) in H.
  rewrite lookup_insert_eq, lookup_singleton_ne in H; discriminate.
Qed.

Lemma metrics_is_metrics cpuPercent memPercent :
  is_metrics (metrics cpuPercent memPercent).
Proof. unfold is_metrics, metrics. rewrite dom_insert_L, dom_singleton_L. reflexivity. Qed.

Lemma sentinel_not_metrics : ~ is_metrics sentinel.
Proof.
  unfold is_metrics, sentinel. rewrite dom_singleton_L. intros H.
  assert (K : "cpu" ∈ ({[ "error" ]} : gset string)) by (rewrite H; set_solver).
  apply elem_of_singleton in K. discriminate.
Qed.

Lemma sample_value_sentinel cli : is_sentinel (sample_value cli) <-> failed cli = true.
Proof.
  unfold sample_value, failed.
  destruct (cli 0%nat) as [|[|previous]]; try (split; reflexivity).
  destruct (cli 1%nat) as [|[|current]]; try (split; reflexivity).
  split; [intros H; destruct (metrics_not_sentinel _ _ H)|discriminate].
Qed.

Lemma sample_value_metrics cli : is_metrics (sample_value cli) <-> failed cli = false.
Proof.
  unfold sample_value, failed.
  destruct (cli 0%nat) as [|[|previous]];
    try (split; [intros H; destruct (sentinel_not_metrics H)|discriminate]).
  destruct (cli 1%nat) as [|[|current]];
    try (split; [intros H; destruct (sentinel_not_metrics H)|discriminate]).
  split; [reflexivity|intros _; apply metrics_is_metrics].
Qed.

Lemma length_filter_fmap {A B} (f : A -> B) (P : B -> Prop) `{forall b, Decision (P b)}
    (l : list A) :
  length (filter P (f <$> l)) = length (filter (fun a => P (f a)) l).
Proof.
  induction l as [|a l IH]; [reflexivity|].
  rewrite fmap_cons, !filter_cons.
  destruct (decide (P (f a))); cbn [length]; rewrite IH; reflexivity.
Qed.

Lemma length_filter_split {A} (b : A -> bool) (l : list A) :
  (length (filter (fun a => b a = true) l) + length (filter (fun a => b a = false) l)
   = length l)%nat.
Proof.
  induction l as [|a l IH]; [reflexivity|].
  rewrite !filter_cons. destruct (b a) eqn:E; simpl.
  - destruct (decide (true = true)); [|done].
    destruct (decide (true = false)); [done|]. simpl. lia.
  - destruct (decide (false = true)); [done|].
    destruct (decide (false = false)); [|done]. simpl. lia.
Qed.

Section Cycle.
Variable w : World.
Variable Cstats : ContainerStats.
Variable items : list container.Summary.
Hypothesis Hclient : client_New w = true.
Hypothesis Hlist : ContainerList w = Some items.
Hypothesis Hfair : fair w.
Hypothesis Hnamed : Forall runtime_named items.
Hypothesis Hdistinct : NoDup (first_name <$> items).

Let runs := spawn w (Interval Cstats) items.

Lemma arrival_lt i : i ∈ arrival w -> (i < length items)%nat.
Proof.
  rewrite (Hfair items Hlist). rewrite elem_of_seq. lia.
Qed.

Lemma spawn_lookup i containerSummary :
  items !! i = Some containerSummary ->
  exists run, runs !! i = Some run
    /\ result run = Some tt
    /\ sends (trace run) = [ {[ (entry w items i).1 := (entry w items i).2 ]} ].
Proof.
  intros Hi. unfold runs, spawn. rewrite list_lookup_imap, Hi. simpl.
  eexists. split; [reflexivity|].
  rewrite Forall_forall in Hnamed.
  destruct (Hnamed containerSummary) as (name & Hhead & _).
  { apply list_elem_of_lookup. eauto. }
  destruct (container.Names containerSummary) as [|name' rest] eqn:HN; [discriminate|].
  simpl in Hhead. injection Hhead as ->.
  destruct (collectStats_named (ContainerStats_ w i) (Interval Cstats) containerSummary
              name rest HN) as (R & S).
  split; [exact R|]. rewrite S. unfold entry, first_name. rewrite Hi. simpl.
  rewrite HN. reflexivity.
Qed.

Lemma wait_returns : result (wait runs) = Some tt.
Proof.
  unfold wait, result. simpl.
  replace (forallb _ runs) with true; [reflexivity|]. symmetry.
  apply forallb_forall. intros run Hin. apply bool_decide_eq_true.
  apply list_elem_of_In, list_elem_of_lookup in Hin as [i Hi].
  assert (Hlt : (i < length items)%nat).
  { pose proof (lookup_lt_Some _ _ _ Hi) as Hl. unfold runs, spawn in Hl.
    rewrite length_imap in Hl. exact Hl. }
  destruct (lookup_lt_is_Some_2 items i Hlt) as [cs Hcs].
  destruct (spawn_lookup i cs Hcs) as (run' & Hr & R & _).
  rewrite Hi in Hr. injection Hr as <-. exact R.
Qed.

Lemma channel_entries order :
  (forall i, i ∈ order -> (i < length items)%nat) ->
  channel order runs = (fun i => {[ (entry w items i).1 := (entry w items i).2 ]}) <$> order.
Proof.
  induction order as [|i order IH]; intros Hlt; [reflexivity|].
  unfold channel in *. simpl.
  destruct (lookup_lt_is_Some_2 items i) as [cs Hcs]; [apply Hlt; left|].
  destruct (spawn_lookup i cs Hcs) as (run & -> & _ & ->). simpl.
  f_equal. apply IH. intros j Hj. apply Hlt. right. exact Hj.
Qed.

Lemma drain_singletons (l : list (string * gmap string spec_float)) :
  drain ((fun kv => {[ kv.1 := kv.2 ]}) <$> l) = list_to_map (reverse l).
Proof.
  unfold drain.
  enough (G : forall acc : gmap string (gmap string spec_float),
             foldl (fun stats result => result ∪ stats) acc
                   ((fun kv => {[ kv.1 := kv.2 ]}) <$> l)
             = list_to_map (reverse l) ∪ acc).
  { rewrite G. apply (right_id_L ∅ (∪)). }
  induction l as [|[k v] l IH]; intros acc; simpl.
  - symmetry. apply (left_id_L ∅ (∪)).
  - rewrite IH, reverse_cons, list_to_map_app. simpl.
    rewrite <- (assoc_L (∪)). reflexivity.
Qed.

Lemma HasPrefix_separator rest : HasPrefix (String "/" rest) "/" = true.
Proof. unfold HasPrefix. simpl. destruct rest; reflexivity. Qed.

Lemma item_named i containerSummary :
  items !! i = Some containerSummary -> runtime_name (first_name containerSummary).
Proof.
  intros Hi. rewrite Forall_forall in Hnamed.
  destruct (Hnamed containerSummary) as (name & Hhead & Hname).
  { apply list_elem_of_lookup. eauto. }
  unfold first_name. rewrite Hhead. exact Hname.
Qed.

(** Distinct runtime names give distinct keys, whichever targets fail: a
    stripped name does not start with the separator, a raw one does. *)
Lemma keys_distinct : NoDup ((entry w items <$> seq 0 (length items)).*1).
Proof.
  rewrite <- list_fmap_compose. apply NoDup_fmap_2_strong; [|apply NoDup_seq].
  intros i j Hi Hj. apply elem_of_seq in Hi, Hj.
  destruct (lookup_lt_is_Some_2 items i) as [ci Hci]; [lia|].
  destruct (lookup_lt_is_Some_2 items j) as [cj Hcj]; [lia|].
  unfold compose, entry. simpl. rewrite Hci, Hcj. simpl.
  destruct (TrimPrefix_runtime_name _ (item_named i ci Hci)) as (Ei & Pi).
  destruct (TrimPrefix_runtime_name _ (item_named j cj Hcj)) as (Ej & Pj).
  assert (Hsame : first_name ci = first_name cj -> i = j).
  { intros E. apply (NoDup_lookup (first_name <$> items) i j (first_name ci) Hdistinct).
    - rewrite list_lookup_fmap, Hci. reflexivity.
    - rewrite list_lookup_fmap, Hcj, E. reflexivity. }
  unfold sample_key.
  destruct (failed (ContainerStats_ w i)), (failed (ContainerStats_ w j)); intros E.
  - exact (Hsame E).
  - rewrite <- E, Ei, HasPrefix_separator in Pj. discriminate.
  - rewrite E, Ej, HasPrefix_separator in Pi. discriminate.
  - apply Hsame. rewrite Ei, Ej, E. reflexivity.
Qed.

Lemma GetContainerStats_returns :
  result (GetContainerStats w Cstats)
  = Some {| Interval := Interval Cstats;
            Stats := list_to_map (reverse (entry w items <$> arrival w)) |}.
Proof.
  unfold GetContainerStats. rewrite Hclient, Hlist. simpl negb. cbv iota.
  rewrite !result_bind. fold runs. rewrite wait_returns. simpl.
  rewrite (channel_entries (arrival w) arrival_lt).
  replace ((fun i => {[ (entry w items i).1 := (entry w items i).2 ]}) <$> arrival w)
    with ((fun kv : string * gmap string spec_float =>
             ({[ kv.1 := kv.2 ]} : gmap string (gmap string spec_float)))
            <$> (entry w items <$> arrival w))
    by (rewrite <- list_fmap_compose; reflexivity).
  rewrite drain_singletons. reflexivity.
Qed.

Lemma arrival_entries :
  reverse (entry w items <$> arrival w) ≡ₚ entry w items <$> seq 0 (length items).
Proof. rewrite reverse_Permutation, (Hfair items Hlist). reflexivity. Qed.

Lemma count_entries_cycle (P : gmap string spec_float -> Prop)
    `{forall r, Decision (P r)} :
  count_entries P (list_to_map (reverse (entry w items <$> arrival w)))
  = length (filter (fun i => P (sample_value (ContainerStats_ w i))) (seq 0 (length items))).
Proof.
  unfold count_entries.
  rewrite map_to_list_to_map by (rewrite arrival_entries; apply keys_distinct).
  rewrite arrival_entries.
  rewrite (length_filter_fmap (entry w items) (fun kv => P kv.2)). reflexivity.
Qed.

(** C1, as amended: for a cycle over [N] targets whose first names are
    distinct runtime names (the separator followed by a name that does not
    start with it), [K] of which fail at fetch or decode, the installed
    aggregate has exactly [N] keys, [K] of them hold the sentinel and [N - K]
    hold [cpu]/[mem] entries, and every target that succeeded is found under
    its display name. *)
Theorem GetContainerStats_aggregate :
  exists Cstats',
    result (GetContainerStats w Cstats) = Some Cstats'
    /\ size (Stats Cstats') = length items
    /\ count_entries is_sentinel (Stats Cstats') = failures w items
    /\ count_entries is_metrics (Stats Cstats') = (length items - failures w items)%nat
    /\ (forall i containerSummary key,
          items !! i = Some containerSummary ->
          failed (ContainerStats_ w i) = false ->
          displayName containerSummary = Some key ->
          exists r, Stats Cstats' !! key = Some r /\ is_metrics r).
Proof.
  eexists. split; [apply GetContainerStats_returns|]. simpl.
  assert (ND : NoDup (reverse (entry w items <$> arrival w)).*1)
    by (rewrite arrival_entries; apply keys_distinct).
  assert (Hs : count_entries is_sentinel
                 (list_to_map (reverse (entry w items <$> arrival w)))
               = failures w items).
  { rewrite count_entries_cycle. unfold failures. f_equal.
    apply list_filter_iff. intros i. apply sample_value_sentinel. }
  split; [|split; [exact Hs|split]].
  - rewrite map_size_list_to_map by exact ND.
    rewrite length_reverse, length_fmap, (Hfair items Hlist), length_seq. reflexivity.
  - rewrite count_entries_cycle.
    rewrite (list_filter_iff _ (fun i => failed (ContainerStats_ w i) = false))
      by (intros i; apply sample_value_metrics).
    pose proof (length_filter_split (fun i => failed (ContainerStats_ w i))
                  (seq 0 (length items))) as Hsplit.
    rewrite length_seq in Hsplit. unfold failures. lia.
  - intros i cs key Hi Hok Hkey.
    exists (sample_value (ContainerStats_ w i)).
    split; [|apply sample_value_metrics; exact Hok].
    apply elem_of_list_to_map_1; [exact ND|].
    apply elem_of_reverse.
    assert (Ek : (key, sample_value (ContainerStats_ w i)) = entry w items i).
    { unfold entry, sample_key. rewrite Hi, Hok. simpl.
      rewrite Forall_forall in Hnamed.
      destruct (Hnamed cs) as (name & Hhead & _); [apply list_elem_of_lookup; eauto|].
      unfold displayName in Hkey. unfold first_name. rewrite Hhead in *. simpl in *.
      congruence. }
    rewrite Ek. apply list_elem_of_fmap_2.
    rewrite (Hfair items Hlist). apply elem_of_seq.
    pose proof (lookup_lt_Some _ _ _ Hi). lia.
Qed.

End Cycle.

(** The example of the specification yields
    [{"web": {"cpu": 100.0, "mem": 70.0}}]. *)
Example GetContainerStats_one_target :
  Stats <$> result (GetContainerStats one_target (Init 1))
  = Some {[ "web" := metrics (F64.of_Z 100) (F64.of_Z 70) ]}.
Proof. vm_compute. reflexivity. Qed.

Lemma two_targets_fair : fair two_targets.
Proof. intros items [= <-]. apply perm_swap. Qed.

(** Two targets, one failure: two keys, one of them the sentinel. *)
Lemma GetContainerStats_aggregate_witness :
  exists Cstats',
    result (GetContainerStats two_targets (Init 1)) = Some Cstats'
    /\ size (Stats Cstats') = 2%nat
    /\ count_entries is_sentinel (Stats Cstats') = 1%nat.
Proof.
  destruct (GetContainerStats_aggregate two_targets (Init 1)
              [target "1" "/a"; target "2" "/b"])
    as (Cstats' & R & S & K & _).
  - reflexivity.
  - reflexivity.
  - exact two_targets_fair.
  - repeat constructor; eexists; (split; [reflexivity|]); eexists; split; reflexivity.
  - apply NoDup_ListNoDup. repeat constructor; simpl; intuition discriminate.
  - exists Cstats'. split; [exact R|]. split; [exact S|exact K].
Defined.

(** Counterexample to C1 as stated: two targets with the distinct names
    ["/a"] and ["/b"], the first of which fails. The keys of the installed
    aggregate are ["/a"] and ["b"]: neither the display names of the target
    list nor its raw names, because a failed target is keyed differently
    from a successful one. *)
Lemma GetContainerStats_keys_follow_outcome :
  let items := [target "1" "/a"; target "2" "/b"] in
  let keys := (fun Cstats' => dom (Stats Cstats'))
                <$> result (GetContainerStats two_targets (Init 1)) in
  NoDup (first_name <$> items)
  /\ failures two_targets items = 1%nat
  /\ keys = Some ({[ "/a"; "b" ]} : gset string)
  /\ keys <> Some (list_to_set (omap displayName items))
  /\ keys <> Some (list_to_set (first_name <$> items)).
Proof.
  split; [apply NoDup_ListNoDup; repeat constructor; simpl; intuition discriminate|].
  split; [reflexivity|].
  split; [vm_compute; reflexivity|].
  split; vm_compute; discriminate.
Qed.

(** ** The store under its mutex *)

Section StoreInvariant.
Import Store.
Variable old : gmap string (gmap string spec_float).
Variable resultChan : list (gmap string (gmap string spec_float)).

Lemma store_inv_start : store_inv old resultChan (start old).
Proof. split; [split; [reflexivity|discriminate]|constructor]. Qed.

Lemma store_inv_step s s' :
  store_inv old resultChan s -> step resultChan s s' -> store_inv old resultChan s'.
Proof.
  intros [Hpc Hseen] Hstep. unfold store_inv.
  destruct Hstep as [s Hat Hmu|s Hat|s result rest Hat|s Hat|s n Hmu|s n Hmu|s n Hmu];
    simpl; try rewrite Hat in Hpc.
  - split; [reflexivity|exact Hseen].
  - split; [|exact Hseen]. split; [exact Hpc|reflexivity].
  - split; [|exact Hseen]. destruct Hpc as [Hmu Hrest]. split; [exact Hmu|exact Hrest].
  - split; [|exact Hseen]. destruct Hpc as [_ Hrest]. split; [exact Hrest|discriminate].
  - split; [|exact Hseen]. revert Hpc. destruct (at_ s); intros Hpc.
    + split; [apply Hpc|discriminate].
    + congruence.
    + destruct Hpc. congruence.
    + split; [apply Hpc|discriminate].
  - split; [exact Hpc|]. constructor; [|exact Hseen].
    revert Hpc. destruct (at_ s); intros Hpc.
    + left. apply Hpc.
    + congruence.
    + destruct Hpc. congruence.
    + right. apply Hpc.
  - split; [|exact Hseen]. revert Hpc. destruct (at_ s); intros Hpc.
    + split; [apply Hpc|discriminate].
    + congruence.
    + destruct Hpc. congruence.
    + split; [apply Hpc|discriminate].
Qed.

Lemma store_inv_reachable s :
  rtc (step resultChan) (start old) s -> store_inv old resultChan s.
Proof.
  revert s. apply (rtc_ind_r (store_inv old resultChan)).
  - apply store_inv_start.
  - intros s s' _ Hstep IH. exact (store_inv_step s s' IH Hstep).
Qed.

(** C9: whatever the interleaving of the orchestrator's critical section
    with readers that take the mutex, every read returns the old aggregate or
    the new one, hence a map with the key count of one of them; the
    orchestrator holds the mutex from the allocation of the fresh map to the
    end of the draining loop, and leaves the new aggregate installed. *)
Theorem read_under_mutex_is_consistent s :
  rtc (step resultChan) (start old) s ->
  Forall (fun a => a = old \/ a = drain resultChan) (seen s)
  /\ Forall (fun a => size a = size old \/ size a = size (drain resultChan)) (seen s)
  /\ (replacing s -> StMu s = Some Orchestrator)
  /\ (at_ s = Finished -> stats s = drain resultChan).
Proof.
  intros Hrun. destruct (store_inv_reachable s Hrun) as [Hpc Hseen].
  split; [exact Hseen|]. split.
  - eapply Forall_impl; [exact Hseen|]. intros a [-> | ->]; auto.
  - unfold replacing. destruct (at_ s); split; try tauto; try discriminate;
      try (intros _; apply Hpc).
Qed.

End StoreInvariant.

(** A reader before the replacement and a reader after it: the first sees
    the old aggregate, the second the new one. *)
Lemma read_under_mutex_is_consistent_witness :
  let old : gmap string (gmap string spec_float) := {[ "web" := sentinel ]} in
  let new : gmap string (gmap string spec_float) :=
    {[ "web" := metrics (F64.of_Z 100) (F64.of_Z 70) ]} in
  Forall (fun a => a = old \/ a = drain [new]) [new; old].
Proof.
  intros old new.
  refine (proj1 (read_under_mutex_is_consistent old [new]
            {| Store.stats := new; Store.StMu := Some (Store.Reader 1);
               Store.at_ := Store.Finished; Store.seen := [new; old] |} _)).
  eapply rtc_l; [apply (Store.reader_lock _ _ 0%nat); reflexivity|].
  eapply rtc_l; [apply (Store.reader_read _ _ 0%nat); reflexivity|].
  eapply rtc_l; [apply (Store.reader_unlock _ _ 0%nat); reflexivity|].
  eapply rtc_l; [apply Store.orch_lock; reflexivity|].
  eapply rtc_l; [apply Store.orch_make; reflexivity|].
  eapply rtc_l; [apply (Store.orch_copy _ _ new []); reflexivity|].
  eapply rtc_l; [apply Store.orch_unlock; reflexivity|].
  eapply rtc_l; [apply (Store.reader_lock _ _ 1%nat); reflexivity|].
  eapply rtc_l; [apply (Store.reader_read _ _ 1%nat); reflexivity|].
  simpl. rewrite (right_id_L ∅ (∪)). apply rtc_refl.
Defined.

(** ** Further properties of the calculator and of the cycle *)

Section Further.
Import F64 F64Facts.
Local Open Scope Z_scope.

(** Whatever the two snapshots hold, [calculateCPUPercent] returns a finite
    number that is not negative: the deltas it divides are unsigned. *)
Theorem calculateCPUPercent_finite_nonneg current previous :
  container.wf current -> container.wf previous ->
  is_finite (calculateCPUPercent current previous) = true
  /\ leb zero (calculateCPUPercent current previous) = true.
Proof.
  intros Wc Wp. rewrite (calculateCPUPercent_guard _ _ Wc Wp).
  destruct Wc as (_ & _ & Hc & _). unfold onlineUnits, uint32 in *.
  set (d := sub64 (container.TotalUsage _) (container.TotalUsage _)).
  set (s := sub64 (container.SystemUsage _) (container.SystemUsage _)).
  assert (Hd : 0 <= d < 2 ^ 64) by (apply Z.mod_pos_bound; lia).
  assert (Hs : 0 <= s < 2 ^ 64) by (apply Z.mod_pos_bound; lia).
  destruct (decide _) as [_|Hne]; [split; reflexivity|].
  destruct (cpuPercent_range d s (container.OnlineCPUs (container.CPUStats_ current)))
    as [->|F]; [lia|lia|lia|split; reflexivity|].
  split; [exact (fin_in_is_finite _ _ _ _ F)|apply (fin_in_positive _ _ _ F)].
Qed.

Lemma calculateCPUPercent_finite_nonneg_witness :
  is_finite (calculateCPUPercent (snapshot 50 1100 1 0 0 ∅) (snapshot 100 1000 1 0 0 ∅))
  = true.
Proof.
  refine (proj1 (calculateCPUPercent_finite_nonneg
                   (snapshot 50 1100 1 0 0 ∅) (snapshot 100 1000 1 0 0 ∅) _ _));
    (apply snapshot_wf; try (unfold uint64, uint32; lia); apply map_Forall_empty).
Defined.

(** A stalled system counter or no CPU at all gives exactly [0.0]. *)
Theorem calculateCPUPercent_stalled current previous :
  container.wf current -> container.wf previous ->
  systemDelta current previous = 0 \/ onlineUnits current = 0 ->
  calculateCPUPercent current previous = zero.
Proof.
  intros Wc Wp H. rewrite (calculateCPUPercent_guard _ _ Wc Wp).
  destruct (decide _) as [_|Hne]; [reflexivity|]. exfalso. apply Hne.
  destruct H as [H|H]; [left|right; exact H].
  unfold systemDelta in H. unfold sub64. rewrite H. reflexivity.
Qed.

Lemma calculateCPUPercent_stalled_witness :
  calculateCPUPercent (snapshot 150 1000 2 0 0 ∅) (snapshot 100 1000 2 0 0 ∅) = zero.
Proof.
  apply calculateCPUPercent_stalled;
    try (apply snapshot_wf; try (unfold uint64, uint32; lia); apply map_Forall_empty).
  left. reflexivity.
Defined.

(** The memory percentage is always a finite number. *)
Theorem memPercentOf_finite current :
  container.wf current -> is_finite (memPercentOf current) = true.
Proof.
  intros W. pose proof (memUsageOf_formula current W) as EU.
  destruct W as (_ & _ & _ & Hu & Hlim & Hst).
  unfold memPercentOf, memoryUsageBytes, uint64 in *.
  destruct (Z.eq_dec (container.Limit (container.MemoryStats_ current)) 0) as [->|Hl].
  { reflexivity. }
  pose proof (of_Z_pos (container.Limit (container.MemoryStats_ current)) 64
                ltac:(lia) ltac:(lia)) as Fl.
  destruct (fin_in_positive _ _ _ Fl) as (_ & -> & _). rewrite EU.
  assert (Fc : nonneg_in 1 65 (of_Z (memoryCacheBytes current))).
  { unfold memoryCacheBytes.
    destruct (container.Stats _ !! "cache") as [cache|] eqn:Hc; simpl.
    - apply (of_Z_nonneg_in _ 64); [exact (Hst _ _ Hc)|lia].
    - left. reflexivity. }
  pose proof (of_Z_nonneg_in _ 64 Hu ltac:(lia)) as Fu.
  destruct (SFsub_range 1 65 _ _ Fu Fc ltac:(lia) ltac:(lia)) as [->|[s Fs]].
  { change (S754_zero false) with zero.
    rewrite (div_zero_l _ _ _ _ Fl), (mul_zero_l _ _ _ _ of_Z_100). reflexivity. }
  pose proof (SFdiv_range _ _ _ _ _ _ _ _ Fs Fl ltac:(lia) ltac:(lia)) as Fq.
  pose proof (SFmul_range _ _ _ _ _ _ _ _ Fq of_Z_100 ltac:(lia) ltac:(lia)) as Fr.
  exact (fin_in_is_finite _ _ _ _ Fr).
Qed.

Lemma memPercentOf_finite_witness :
  is_finite (memPercentOf (snapshot 0 0 1 10 (2 ^ 63 - 4096) {[ "cache" := 30 ]})) = true.
Proof.
  apply memPercentOf_finite.
  apply snapshot_wf; try (unfold uint64, uint32; lia).
  apply map_Forall_singleton. unfold uint64. lia.
Defined.

End Further.

(** A cycle replaces the aggregate: what it installs does not depend on what
    the store held before. *)
Theorem GetContainerStats_replaces w Cstats1 Cstats2 :
  Interval Cstats1 = Interval Cstats2 ->
  client_New w = true -> ContainerList w <> None ->
  Stats <$> result (GetContainerStats w Cstats1)
  = Stats <$> result (GetContainerStats w Cstats2).
Proof.
  intros HI Hc Hl. unfold GetContainerStats. rewrite Hc, HI.
  destruct (ContainerList w) as [items|]; [|done]. simpl negb. cbv iota.
  rewrite !result_bind. destruct (result (wait _)); reflexivity.
Qed.

Lemma GetContainerStats_replaces_witness :
  Stats <$> result (GetContainerStats one_target
                      {| Interval := 1; Stats := {[ "gone" := sentinel ]} |})
  = Stats <$> result (GetContainerStats one_target (Init 1)).
Proof.
  apply GetContainerStats_replaces; [reflexivity|reflexivity|discriminate].
Defined.

(** With distinct runtime names the installed aggregate does not depend on
    the order in which the goroutines finish. *)
Theorem GetContainerStats_any_order w1 w2 Cstats items :
  client_New w1 = true -> client_New w2 = true ->
  ContainerList w1 = Some items -> ContainerList w2 = Some items ->
  (forall i n, ContainerStats_ w1 i n = ContainerStats_ w2 i n) ->
  fair w1 -> fair w2 ->
  Forall runtime_named items -> NoDup (first_name <$> items) ->
  result (GetContainerStats w1 Cstats) = result (GetContainerStats w2 Cstats).
Proof.
  intros Hc1 Hc2 Hl1 Hl2 Hsame Hf1 Hf2 Hn Hd.
  rewrite (GetContainerStats_returns w1 Cstats items Hc1 Hl1 Hf1 Hn).
  rewrite (GetContainerStats_returns w2 Cstats items Hc2 Hl2 Hf2 Hn).
  f_equal. f_equal.
  assert (He : forall i, entry w1 items i = entry w2 items i).
  { intros i. unfold entry, sample_key, sample_value, failed.
    rewrite !Hsame. reflexivity. }
  apply list_to_map_proper.
  - rewrite (arrival_entries w1 items Hl1 Hf1). apply keys_distinct; assumption.
  - rewrite (arrival_entries w1 items Hl1 Hf1), (arrival_entries w2 items Hl2 Hf2).
    rewrite (list_fmap_ext _ _ (seq 0 (length items)) (fun _ i _ => He i)). reflexivity.
Qed.

(** The two-target cycle installs the same aggregate in either order. *)
Lemma GetContainerStats_any_order_witness :
  result (GetContainerStats two_targets (Init 1))
  = result (GetContainerStats two_targets_in_order (Init 1)).
Proof.
  apply (GetContainerStats_any_order two_targets two_targets_in_order (Init 1)
           [target "1" "/a"; target "2" "/b"]).
  - reflexivity.
  - reflexivity.
  - reflexivity.
  - reflexivity.
  - intros i n. reflexivity.
  - exact two_targets_fair.
  - intros items [= <-]. reflexivity.
  - repeat constructor; eexists; (split; [reflexivity|]); eexists; split; reflexivity.
  - apply NoDup_ListNoDup. repeat constructor; simpl; intuition discriminate.
Defined.

(** ** [GetContainerLogs] *)


Lemma findContainerID_first_match before containerSummary after containerName :
  (forall c, c ∈ before -> String "/" containerName ∉ container.Names c) ->
  String "/" containerName ∈ container.Names containerSummary ->
  findContainerID (before ++ containerSummary :: after) containerName
  = container.ID containerSummary.
Proof.
  intros Hno Hyes. induction before as [|c before IH]; simpl.
  - rewrite bool_decide_eq_true_2 by exact Hyes. reflexivity.
  - rewrite bool_decide_eq_false_2 by (apply Hno; left).
    apply IH. intros c' Hc'. apply Hno. right. exact Hc'.
Qed.

Lemma stripHeader_frame header payload :
  String.length header = 8%nat -> payload <> "" ->
  stripHeader (header +:+ payload) = payload.
Proof.
  intros Hh Hp.
  do 9 (destruct header as [|? header]; try discriminate).
  destruct payload as [|p0 payload]; [done|].
  unfold stripHeader. simpl. rewrite substring_all. reflexivity.
Qed.

Lemma stripHeader_short line :
  (String.length line <= 8)%nat -> stripHeader line = line.
Proof.
  intros H. unfold stripHeader.
  destruct (Nat.ltb_spec 8 (String.length line)); [lia|reflexivity].
Qed.



Section LogsOfContainer.
Variable d : Docker.
Variable containerName : string.
Variables before after : list container.Summary.
Variable containerSummary : container.Summary.
Hypothesis Hclient : New d = None.
Hypothesis Hlist : ContainerListAll d = (before ++ containerSummary :: after, None).
Hypothesis Hbefore :
  forall c, c ∈ before -> String "/" containerName ∉ container.Names c.
Hypothesis Hname : String "/" containerName ∈ container.Names containerSummary.
Hypothesis Hid : container.ID containerSummary <> "".

Lemma GetContainerLogs_selected :
  GetContainerLogs d containerName
  = match ContainerLogs d (container.ID containerSummary) with
    | inr err =>
        ([CallContainerList true;
          CallContainerLogs (container.ID containerSummary) true true "200";
          CallLog "Unable to retrieve log for container";
          CallCloseClient],
         ([], Some (DockerErr err)))
    | inl (lines, Some err) =>
        ([CallContainerList true;
          CallContainerLogs (container.ID containerSummary) true true "200";
          CallLog "Unexpected error while collecting log";
          CallCloseLogs; CallCloseClient],
         (stripHeader <$> lines, Some (DockerErr err)))
    | inl (lines, None) =>
        ([CallContainerList true;
          CallContainerLogs (container.ID containerSummary) true true "200";
          CallCloseLogs; CallCloseClient],
         (stripHeader <$> lines, None))
    end.
Proof.
  unfold GetContainerLogs. rewrite Hclient, Hlist.
  rewrite (findContainerID_first_match before containerSummary after containerName
             Hbefore Hname).
  destruct (String.eqb_spec (container.ID containerSummary) "") as [E|_]; [done|].
  destruct (ContainerLogs d (container.ID containerSummary)) as [[lines [err|]]|err];
    reflexivity.
Qed.

(** The logs come from the first listed container that carries the name
    among its names, whichever position the name has in [Names]: exactly one
    log stream is asked for, that container's, with the last 200 lines of
    both output streams. *)
Theorem GetContainerLogs_first_match :
  List.filter is_logs_call (fst (GetContainerLogs d containerName))
  = [CallContainerLogs (container.ID containerSummary) true true "200"].
Proof.
  rewrite GetContainerLogs_selected.
  destruct (ContainerLogs d (container.ID containerSummary)) as [[lines [err|]]|err];
    reflexivity.
Qed.

(** When the scanner stops on an error the lines read until then are still
    returned, one per scanned line, together with the error. *)
Theorem GetContainerLogs_scan_error lines err :
  ContainerLogs d (container.ID containerSummary) = inl (lines, Some err) ->
  exists logLines,
    snd (GetContainerLogs d containerName) = (logLines, Some (DockerErr err))
    /\ length logLines = length lines.
Proof.
  intros HL. rewrite GetContainerLogs_selected, HL. simpl.
  exists (stripHeader <$> lines). split; [reflexivity|apply length_fmap].
Qed.

(** Framed lines: when every scanned line is an 8-byte header followed by a
    payload that is not empty, the payloads are what is returned. *)
Theorem GetContainerLogs_frames frames :
  ContainerLogs d (container.ID containerSummary)
  = inl ((fun frame => frame.1 +:+ frame.2) <$> frames, None) ->
  Forall (fun frame => String.length frame.1 = 8%nat /\ frame.2 <> "") frames ->
  snd (GetContainerLogs d containerName) = (frames.*2, None).
Proof.
  intros HL Hframes. rewrite GetContainerLogs_selected, HL. simpl. f_equal.
  clear HL. induction Hframes as [|[header payload] frames [Hh Hp] _ IH]; [reflexivity|].
  rewrite !fmap_cons. f_equal; [apply stripHeader_frame; assumption|exact IH].
Qed.

(** A scanned line of at most 8 bytes is returned as it is: a header whose
    payload is the empty line comes back as the header itself. *)
Theorem GetContainerLogs_short_lines lines :
  ContainerLogs d (container.ID containerSummary) = inl (lines, None) ->
  Forall (fun line => (String.length line <= 8)%nat) lines ->
  snd (GetContainerLogs d containerName) = (lines, None).
Proof.
  intros HL Hshort. rewrite GetContainerLogs_selected, HL. simpl. f_equal.
  clear HL. induction Hshort as [|line lines Hl _ IH]; [reflexivity|].
  rewrite fmap_cons. f_equal; [apply stripHeader_short; exact Hl|exact IH].
Qed.

End LogsOfContainer.

(** Lines come back with an error only after a scanner error: every other
    failure returns the empty list. *)
Theorem GetContainerLogs_failure_without_lines d containerName logLines err :
  snd (GetContainerLogs d containerName) = (logLines, Some err) ->
  logLines = []
  \/ exists id lines scanErr,
       ContainerLogs d id = inl (lines, Some scanErr)
       /\ err = DockerErr scanErr /\ length logLines = length lines.
Proof.
  unfold GetContainerLogs.
  destruct (New d) as [e|]; [intros [= <- _]; left; reflexivity|].
  destruct (ContainerListAll d) as [items [e|]]; [intros [= <- _]; left; reflexivity|].
  destruct (String.eqb _ ""); [intros [= <- _]; left; reflexivity|].
  destruct (ContainerLogs d _) as [[lines [e|]]|e] eqn:HL.
  - simpl. intros [= <- <-]. right. eexists _, lines, e.
    split; [exact HL|]. split; [reflexivity|apply length_fmap].
  - discriminate.
  - intros [= <- _]. left. reflexivity.
Qed.

Lemma GetContainerLogs_failure_without_lines_witness :
  [] = ([] : list string)
  \/ exists id lines scanErr,
       ContainerLogs (two_containers ([], None)) id = inl (lines, Some scanErr)
       /\ NotFound "cache" = DockerErr scanErr /\ length ([] : list string) = length lines.
Proof.
  apply (GetContainerLogs_failure_without_lines
           (two_containers ([], None)) "cache" [] (NotFound "cache")).
  reflexivity.
Defined.

Lemma two_containers_db stream :
  ContainerListAll (two_containers stream)
  = ([target "1" "/web"] ++ target "2" "/db" :: [], None)
  /\ (forall c, c ∈ [target "1" "/web"] -> String "/" "db" ∉ container.Names c)
  /\ String "/" "db" ∈ container.Names (target "2" "/db")
  /\ container.ID (target "2" "/db") <> "".
Proof.
  split; [reflexivity|]. split; [|split; [left|discriminate]].
  intros c Hc Hin. apply list_elem_of_singleton in Hc as ->.
  apply list_elem_of_singleton in Hin. discriminate.
Qed.

(** The logs of "db" are those of the second listed container. *)
Lemma GetContainerLogs_first_match_witness :
  List.filter is_logs_call (fst (GetContainerLogs (two_containers ([], None)) "db"))
  = [CallContainerLogs "2" true true "200"].
Proof.
  destruct (two_containers_db ([], None)) as (L & B & N & I).
  exact (GetContainerLogs_first_match (two_containers ([], None)) "db"
           [target "1" "/web"] [] (target "2" "/db") eq_refl L B N I).
Defined.

(** One line read, then the stream breaks: the line and the error. *)
Lemma GetContainerLogs_scan_error_witness :
  exists logLines,
    snd (GetContainerLogs (two_containers (["01234567started"], Some "EOF")) "db")
    = (logLines, Some (DockerErr "EOF"))
    /\ length logLines = 1%nat.
Proof.
  destruct (two_containers_db (["01234567started"], Some "EOF")) as (L & B & N & I).
  exact (GetContainerLogs_scan_error
           (two_containers (["01234567started"], Some "EOF")) "db"
           [target "1" "/web"] [] (target "2" "/db") eq_refl L B N I
           ["01234567started"] "EOF" eq_refl).
Defined.

(** Two framed lines give their two payloads. *)
Lemma GetContainerLogs_frames_witness :
  snd (GetContainerLogs
         (two_containers (["01234567started"; "01234567ready"], None)) "db")
  = (["started"; "ready"], None).
Proof.
  destruct (two_containers_db (["01234567started"; "01234567ready"], None))
    as (L & B & N & I).
  refine (GetContainerLogs_frames
            (two_containers (["01234567started"; "01234567ready"], None)) "db"
            [target "1" "/web"] [] (target "2" "/db") eq_refl L B N I
            [("01234567", "started"); ("01234567", "ready")] eq_refl _).
  repeat constructor; discriminate.
Defined.

(** A header with an empty payload comes back as the header. *)
Lemma GetContainerLogs_short_lines_witness :
  snd (GetContainerLogs (two_containers (["01234567"], None)) "db")
  = (["01234567"], None).
Proof.
  destruct (two_containers_db (["01234567"], None)) as (L & B & N & I).
  refine (GetContainerLogs_short_lines
            (two_containers (["01234567"], None)) "db"
            [target "1" "/web"] [] (target "2" "/db") eq_refl L B N I
            ["01234567"] eq_refl _).
  repeat constructor.
Defined.

Ltac no_such_call H :=
  repeat (apply elem_of_cons in H as [H|H]; [discriminate|]);
  apply elem_of_nil in H; destruct H.

(** On every path the client is closed exactly once if it was created and
    the log stream exactly once if it was opened; neither is closed
    otherwise. *)
Theorem GetContainerLogs_closes d containerName :
  length (List.filter is_close_client (fst (GetContainerLogs d containerName)))
  = match New d with Some _ => 0%nat | None => 1%nat end
  /\ (forall id out err tail,
        CallContainerLogs id out err tail ∈ fst (GetContainerLogs d containerName) ->
        length (List.filter is_close_logs (fst (GetContainerLogs d containerName)))
        = match ContainerLogs d id with inl _ => 1%nat | inr _ => 0%nat end)
  /\ (List.filter is_logs_call (fst (GetContainerLogs d containerName)) = [] ->
      List.filter is_close_logs (fst (GetContainerLogs d containerName)) = []).
Proof.
  unfold GetContainerLogs.
  destruct (New d) as [e|].
  { split; [reflexivity|]. split; [|reflexivity]. intros ???? H. no_such_call H. }
  destruct (ContainerListAll d) as [items [e|]].
  { split; [reflexivity|]. split; [|reflexivity]. intros ???? H. no_such_call H. }
  destruct (String.eqb _ "").
  { split; [reflexivity|]. split; [|reflexivity]. intros ???? H. no_such_call H. }
  destruct (ContainerLogs d (findContainerID items containerName))
    as [[lines [e|]]|e] eqn:HL; (split; [reflexivity|]); (split; [|discriminate]);
    intros id out err tail H;
    (apply elem_of_cons in H as [H|H]; [discriminate|]);
    (apply elem_of_cons in H as [H|H];
     [injection H as -> _ _ _; rewrite HL; reflexivity|]);
    no_such_call H.
Qed.

Lemma String_longer a s : String a s <> s.
Proof.
  revert a. induction s as [|b s IH]; intros a H; [discriminate|].
  inversion H; subst. exact (IH b H2).
Qed.

(** The key under which a sampled target appears in the aggregate leads
    [GetContainerLogs] back to that target when its first name starts with
    the separator and no earlier container carries that name; the raw key of
    a failed target does not, when the target has no other name. *)
Theorem sample_key_finds_container cli before containerSummary after rest others :
  container.Names containerSummary = String "/" rest :: others ->
  (forall c, c ∈ before -> String "/" rest ∉ container.Names c) ->
  (failed cli = false ->
   findContainerID (before ++ containerSummary :: after)
     (sample_key cli (first_name containerSummary))
   = container.ID containerSummary)
  /\ (failed cli = true -> others = [] ->
      findContainerID [containerSummary]
        (sample_key cli (first_name containerSummary)) = "").
Proof.
  intros HN Hbefore. unfold sample_key, first_name. rewrite HN.
  change (default "" (head (String "/" rest :: others))) with (String "/" rest).
  split.
  - intros ->. rewrite TrimPrefix_separator.
    apply findContainerID_first_match; [exact Hbefore|]. rewrite HN. left.
  - intros -> ->. cbn [findContainerID]. rewrite HN.
    rewrite bool_decide_eq_false_2; [reflexivity|].
    intros H. apply list_elem_of_singleton in H.
    exact (String_longer "/" (String "/" rest) H).
Qed.

Lemma sample_key_finds_container_witness :
  findContainerID ([target "1" "/web"] ++ target "2" "/db" :: [])
    (sample_key (fun _ => Body (Decoded (snapshot 0 0 1 0 0 ∅)))
                (first_name (target "2" "/db")))
  = "2".
Proof.
  refine (proj1 (sample_key_finds_container
                   (fun _ => Body (Decoded (snapshot 0 0 1 0 0 ∅)))
                   [target "1" "/web"] (target "2" "/db") [] "db" [] eq_refl _)
                eq_refl).
  intros c Hc Hin. apply list_elem_of_singleton in Hc as ->.
  apply list_elem_of_singleton in Hin. discriminate.
Defined.

(** ** What a cycle costs and what it publishes *)



(** One sampler: a single [wg.Done()], at the very end, also when it panics;
    one or two stats requests with one sleep of the configured interval
    between them; at most one send. *)
Lemma collectStats_events cli interval containerSummary :
  let tr := trace (collectStats cli interval containerSummary) in
  count is_done tr = 1%nat
  /\ last tr = Some EvDone
  /\ count is_stats tr = S (count is_sleep tr)
  /\ (count is_sleep tr <= 1)%nat
  /\ Forall (fun e => is_sleep e = true -> e = EvSleep interval) tr
  /\ (length (sends tr) <= 1)%nat.
Proof.
  unfold collectStats, sendError.
  destruct (container.Names containerSummary) as [|name rest];
    destruct (cli 0%nat) as [|[|previous]];
    try (destruct (cli 1%nat) as [|[|current]]);
    (cbn; repeat split; try lia;
     repeat (constructor; try (intros; try discriminate; reflexivity))).
Qed.







Lemma collectStats_empty_names_all cli interval containerSummary :
  container.Names containerSummary = [] ->
  result (collectStats cli interval containerSummary) = None
  /\ sends (trace (collectStats cli interval containerSummary)) = [].
Proof.
  intros HN. unfold collectStats, sendError. rewrite HN.
  destruct (cli 0%nat) as [|[|previous]]; try (split; reflexivity).
  destruct (cli 1%nat) as [|[|current]]; split; reflexivity.
Qed.

Lemma channel_elem m order runs :
  m ∈ channel order runs ->
  exists i run, i ∈ order /\ runs !! i = Some run /\ m ∈ sends (trace run).
Proof.
  unfold channel. rewrite list_elem_of_In, in_flat_map.
  intros (i & Hi & Hm). apply list_elem_of_In in Hi.
  destruct (runs !! i) as [run|] eqn:Hrun; [|destruct Hm].
  exists i, run. split; [exact Hi|]. split; [exact Hrun|].
  apply list_elem_of_In. exact Hm.
Qed.

Lemma sends_collectStats m cli interval containerSummary :
  m ∈ sends (trace (collectStats cli interval containerSummary)) ->
  exists name, head (container.Names containerSummary) = Some name
               /\ m = {[ sample_key cli name := sample_value cli ]}.
Proof.
  destruct (container.Names containerSummary) as [|name rest] eqn:HN.
  - rewrite (proj2 (collectStats_empty_names_all cli interval containerSummary HN)).
    intros H. apply elem_of_nil in H. destruct H.
  - rewrite (proj2 (collectStats_named cli interval containerSummary name rest HN)).
    intros H. apply list_elem_of_singleton in H. exists name. split; [reflexivity|exact H].
Qed.

Lemma drain_lookup_Some resultChan k r :
  drain resultChan !! k = Some r -> exists m, m ∈ resultChan /\ m !! k = Some r.
Proof.
  unfold drain.
  enough (G : forall acc : gmap string (gmap string spec_float),
             foldl (fun stats result => result ∪ stats) acc resultChan !! k = Some r ->
             acc !! k = Some r \/ exists m, m ∈ resultChan /\ m !! k = Some r).
  { intros H. destruct (G ∅ H) as [E|E]; [rewrite lookup_empty in E; discriminate|exact E]. }
  induction resultChan as [|m l IH]; intros acc H; [left; exact H|].
  destruct (IH _ H) as [E|(m' & Hm' & E)].
  - apply lookup_union_Some_raw in E as [E|[_ E]].
    + right. exists m. split; [left|exact E].
    + left. exact E.
  - right. exists m'. split; [right; exact Hm'|exact E].
Qed.

Lemma cycle_result w Cstats items Cstats' :
  client_New w = true -> ContainerList w = Some items ->
  result (GetContainerStats w Cstats) = Some Cstats' ->
  Stats Cstats' = drain (channel (arrival w) (spawn w (Interval Cstats) items))
  /\ Interval Cstats' = Interval Cstats.
Proof.
  intros Hc Hl. unfold GetContainerStats. rewrite Hc, Hl. simpl negb. cbv iota.
  rewrite !result_bind. cbn [emit result snd mbind option_bind].
  destruct (result (wait (spawn w (Interval Cstats) items))) as [[]|];
    [|discriminate].
  cbn. intros [= <-]. split; reflexivity.
Qed.

Lemma cycle_entry w Cstats items Cstats' key r :
  client_New w = true -> ContainerList w = Some items ->
  result (GetContainerStats w Cstats) = Some Cstats' ->
  Stats Cstats' !! key = Some r ->
  exists i containerSummary name,
    items !! i = Some containerSummary
    /\ head (container.Names containerSummary) = Some name
    /\ key = sample_key (ContainerStats_ w i) name
    /\ r = sample_value (ContainerStats_ w i).
Proof.
  intros Hc Hl Hres Hkey.
  destruct (cycle_result w Cstats items Cstats' Hc Hl Hres) as (HS & _).
  rewrite HS in Hkey. apply drain_lookup_Some in Hkey as (m & Hm & Hk).
  apply channel_elem in Hm as (i & run & _ & Hrun & Hm).
  unfold spawn in Hrun. rewrite list_lookup_imap in Hrun.
  destruct (items !! i) as [cs|] eqn:Hi; [|discriminate]. injection Hrun as <-.
  apply sends_collectStats in Hm as (name & Hname & ->).
  apply lookup_singleton_Some in Hk as [<- <-].
  exists i, cs, name. done.
Qed.

(** Every entry of an installed aggregate comes from a listed target: it is
    the sentinel under the target's first name, or the [cpu]/[mem] result
    computed from that target's two snapshots under the stripped name. *)
Theorem GetContainerStats_entries w Cstats items Cstats' key r :
  client_New w = true -> ContainerList w = Some items ->
  result (GetContainerStats w Cstats) = Some Cstats' ->
  Stats Cstats' !! key = Some r ->
  exists i containerSummary name,
    items !! i = Some containerSummary
    /\ head (container.Names containerSummary) = Some name
    /\ ((failed (ContainerStats_ w i) = true /\ key = name /\ r = sentinel)
        \/ exists previous current,
             ContainerStats_ w i 0%nat = Body (Decoded previous)
             /\ ContainerStats_ w i 1%nat = Body (Decoded current)
             /\ key = TrimPrefix name "/"
             /\ r = metrics (calculateCPUPercent current previous)
                            (memPercentOf current)).
Proof.
  intros Hc Hl Hres Hkey.
  destruct (cycle_entry w Cstats items Cstats' key r Hc Hl Hres Hkey)
    as (i & cs & name & Hi & Hname & -> & ->).
  exists i, cs, name. split; [exact Hi|]. split; [exact Hname|].
  unfold sample_key, sample_value, failed.
  destruct (ContainerStats_ w i 0%nat) as [|[|previous]]; try (left; done).
  destruct (ContainerStats_ w i 1%nat) as [|[|current]]; try (left; done).
  right. exists previous, current. done.
Qed.

Lemma GetContainerStats_entries_witness :
  exists i containerSummary name,
    [target "1" "/web"] !! i = Some containerSummary
    /\ head (container.Names containerSummary) = Some name
    /\ ((failed (ContainerStats_ one_target i) = true /\ "web" = name
         /\ metrics (F64.of_Z 100) (F64.of_Z 70) = sentinel)
        \/ exists previous current,
             ContainerStats_ one_target i 0%nat = Body (Decoded previous)
             /\ ContainerStats_ one_target i 1%nat = Body (Decoded current)
             /\ "web" = TrimPrefix name "/"
             /\ metrics (F64.of_Z 100) (F64.of_Z 70)
                = metrics (calculateCPUPercent current previous)
                          (memPercentOf current)).
Proof.
  apply (GetContainerStats_entries one_target (Init 1) [target "1" "/web"]
           {| Interval := 1;
              Stats := {[ "web" := metrics (F64.of_Z 100) (F64.of_Z 70) ]} |}
           "web" (metrics (F64.of_Z 100) (F64.of_Z 70))).
  - reflexivity.
  - reflexivity.
  - vm_compute. reflexivity.
  - apply lookup_singleton_eq.
Defined.

Lemma calculateCPUPercent_is_finite current previous :
  container.wf current -> container.wf previous ->
  F64.is_finite (calculateCPUPercent current previous) = true.
Proof.
  intros Wc Wp. rewrite (calculateCPUPercent_guard _ _ Wc Wp).
  destruct Wc as (_ & _ & Hc & _). unfold onlineUnits, uint32 in *.
  set (d := sub64 (container.TotalUsage _) (container.TotalUsage _)).
  set (s := sub64 (container.SystemUsage _) (container.SystemUsage _)).
  assert (Hd : (0 <= d < 2 ^ 64)%Z) by (apply Z.mod_pos_bound; lia).
  assert (Hs : (0 <= s < 2 ^ 64)%Z) by (apply Z.mod_pos_bound; lia).
  destruct (decide _) as [_|Hne]; [reflexivity|].
  destruct (cpuPercent_range d s (container.OnlineCPUs (container.CPUStats_ current)))
    as [->|F]; [lia|lia|lia|reflexivity|].
  exact (F64Facts.fin_in_is_finite _ _ _ _ F).
Qed.

Lemma memPercentOf_is_finite current :
  container.wf current -> F64.is_finite (memPercentOf current) = true.
Proof.
  intros W. pose proof (memUsageOf_formula current W) as EU.
  destruct W as (_ & _ & _ & Hu & Hlim & Hst).
  unfold memPercentOf, memoryUsageBytes, uint64 in *.
  destruct (Z.eq_dec (container.Limit (container.MemoryStats_ current)) 0%Z) as [->|Hl].
  { reflexivity. }
  pose proof (F64Facts.of_Z_pos (container.Limit (container.MemoryStats_ current)) 64
                ltac:(lia) ltac:(lia)) as Fl.
  destruct (F64Facts.fin_in_positive _ _ _ Fl) as (_ & -> & _). rewrite EU.
  assert (Fc : F64.nonneg_in 1 65 (F64.of_Z (memoryCacheBytes current))).
  { unfold memoryCacheBytes.
    destruct (container.Stats _ !! "cache") as [cache|] eqn:Hc; simpl.
    - apply (F64Facts.of_Z_nonneg_in _ 64); [exact (Hst _ _ Hc)|lia].
    - left. reflexivity. }
  pose proof (F64Facts.of_Z_nonneg_in _ 64 Hu ltac:(lia)) as Fu.
  destruct (F64Facts.SFsub_range 1 65 _ _ Fu Fc ltac:(lia) ltac:(lia)) as [->|[s Fs]].
  { change (S754_zero false) with F64.zero.
    rewrite (F64Facts.div_zero_l _ _ _ _ Fl), (F64Facts.mul_zero_l _ _ _ _ F64Facts.of_Z_100).
    reflexivity. }
  pose proof (F64Facts.SFdiv_range _ _ _ _ _ _ _ _ Fs Fl ltac:(lia) ltac:(lia)) as Fq.
  pose proof (F64Facts.SFmul_range _ _ _ _ _ _ _ _ Fq F64Facts.of_Z_100 ltac:(lia) ltac:(lia)) as Fr.
  exact (F64Facts.fin_in_is_finite _ _ _ _ Fr).
Qed.

(** With well-formed snapshots a cycle never publishes a NaN or an infinity:
    every value of every entry of the installed aggregate is a finite number
    stored under ["error"], ["cpu"] or ["mem"]. *)
Theorem GetContainerStats_publishes_finite w Cstats items Cstats' key r metric v :
  client_New w = true -> ContainerList w = Some items ->
  (forall i n stats, ContainerStats_ w i n = Body (Decoded stats) -> container.wf stats) ->
  result (GetContainerStats w Cstats) = Some Cstats' ->
  Stats Cstats' !! key = Some r ->
  r !! metric = Some v ->
  F64.is_finite v = true /\ (metric = "error" \/ metric = "cpu" \/ metric = "mem").
Proof.
  intros Hc Hl Hwf Hres Hkey Hv.
  destruct (cycle_entry w Cstats items Cstats' key r Hc Hl Hres Hkey)
    as (i & cs & name & _ & _ & _ & ->).
  assert (Hr : sample_value (ContainerStats_ w i) = sentinel
               \/ exists prev cur,
                    ContainerStats_ w i 0%nat = Body (Decoded prev)
                    /\ ContainerStats_ w i 1%nat = Body (Decoded cur)
                    /\ sample_value (ContainerStats_ w i)
                       = metrics (calculateCPUPercent cur prev) (memPercentOf cur)).
  { unfold sample_value.
    destruct (ContainerStats_ w i 0%nat) as [|[|prev]]; try (left; done).
    destruct (ContainerStats_ w i 1%nat) as [|[|cur]]; try (left; done).
    right. exists prev, cur. done. }
  destruct Hr as [Hr|(prev & cur & H0 & H1 & Hr)]; rewrite Hr in Hv.
  - unfold sentinel in Hv. apply lookup_singleton_Some in Hv as [<- <-].
    split; [reflexivity|left; reflexivity].
  - unfold metrics in Hv. apply lookup_insert_Some in Hv as [[<- <-]|[_ Hv]].
    + split; [|right; left; reflexivity].
      apply calculateCPUPercent_is_finite; [exact (Hwf _ _ _ H1)|exact (Hwf _ _ _ H0)].
    + apply lookup_singleton_Some in Hv as [<- <-].
      split; [|right; right; reflexivity].
      apply memPercentOf_is_finite. exact (Hwf _ _ _ H1).
Qed.

Lemma GetContainerStats_publishes_finite_witness :
  F64.is_finite (F64.of_Z 100) = true
  /\ ("cpu" = "error" \/ "cpu" = "cpu" \/ "cpu" = "mem").
Proof.
  apply (GetContainerStats_publishes_finite one_target (Init 1) [target "1" "/web"]
           {| Interval := 1;
              Stats := {[ "web" := metrics (F64.of_Z 100) (F64.of_Z 70) ]} |}
           "web" (metrics (F64.of_Z 100) (F64.of_Z 70)) "cpu" (F64.of_Z 100)).
  - reflexivity.
  - reflexivity.
  - intros i [|[|n]] stats [= <-];
      (apply snapshot_wf; try (unfold uint64, uint32; lia);
       apply map_Forall_singleton; unfold uint64; lia).
  - vm_compute. reflexivity.
  - apply lookup_singleton_eq.
  - apply lookup_insert_eq.
Defined.

Lemma drain_keeps (resultChan : list (gmap string (gmap string spec_float)))
    (acc : gmap string (gmap string spec_float)) key :
  Forall (fun m : gmap string (gmap string spec_float) => m !! key = None) resultChan ->
  foldl (fun stats result => result ∪ stats) acc resultChan !! key = acc !! key.
Proof.
  intros H. revert acc. induction H as [|m l Hm _ IH]; intros acc; [reflexivity|].
  simpl. rewrite IH. rewrite lookup_union_r by exact Hm. reflexivity.
Qed.

(** The draining loop lets the last arrival win: a key carried by several
    results ends with the value of the result received last. *)
Theorem drain_last_wins before result after key r :
  result !! key = Some r ->
  Forall (fun m : gmap string (gmap string spec_float) => m !! key = None) after ->
  drain (before ++ result :: after) !! key = Some r.
Proof.
  intros Hr Hafter. unfold drain. rewrite foldl_app. simpl.
  rewrite (drain_keeps after _ key Hafter).
  apply lookup_union_Some_l. exact Hr.
Qed.

(** Two results for the key "a": the later one stays. *)
Lemma drain_last_wins_witness :
  drain ([ {[ "a" := sentinel ]} ]
         ++ {[ "a" := metrics (F64.of_Z 1) (F64.of_Z 2) ]} :: [ {[ "b" := sentinel ]} ])
    !! "a"
  = Some (metrics (F64.of_Z 1) (F64.of_Z 2)).
Proof.
  apply drain_last_wins.
  - apply lookup_singleton_eq.
  - constructor; [|constructor]. apply lookup_singleton_ne. discriminate.
Defined.

Lemma drain_size (resultChan : list (gmap string (gmap string spec_float))) :
  Forall (fun m => exists k (r : gmap string spec_float), m = {[ k := r ]}) resultChan ->
  size (drain resultChan) <= length resultChan.
Proof.
  unfold drain.
  enough (G : forall acc : gmap string (gmap string spec_float),
             Forall (fun m => exists k (r : gmap string spec_float), m = {[ k := r ]})
                    resultChan ->
             size (foldl (fun stats result => result ∪ stats) acc resultChan)
             <= size acc + length resultChan).
  { intros H. specialize (G ∅ H). rewrite map_size_empty in G. exact G. }
  intros acc H. revert acc.
  induction H as [|m l (k & r & ->) _ IH]; intros acc; simpl; [lia|].
  specialize (IH ({[ k := r ]} ∪ acc)).
  rewrite <- insert_union_singleton_l in IH.
  pose proof (map_size_insert k r acc) as Hs.
  rewrite <- insert_union_singleton_l.
  destruct (acc !! k); unfold id in Hs; lia.
Qed.

Lemma length_flat_map_le {A B} (f : A -> list B) (l : list A) :
  (forall a, length (f a) <= 1) -> length (flat_map f l) <= length l.
Proof.
  intros Hf. induction l as [|a l IH]; [reflexivity|]. simpl.
  rewrite length_app. specialize (Hf a). lia.
Qed.

(** The channel was made with room for [len(containers.Items)] results and
    never has to hold more, so no send blocks; and the installed aggregate
    never has more keys than there were targets. *)
Theorem GetContainerStats_capacity w Cstats items :
  fair w -> ContainerList w = Some items ->
  length (channel (arrival w) (spawn w (Interval Cstats) items)) <= length items
  /\ forall Cstats',
       client_New w = true ->
       result (GetContainerStats w Cstats) = Some Cstats' ->
       size (Stats Cstats') <= length items.
Proof.
  intros Hf Hl.
  assert (Hlen : length (channel (arrival w) (spawn w (Interval Cstats) items))
                 <= length items).
  { unfold channel.
    etransitivity; [apply length_flat_map_le|].
    - intros i. destruct (spawn w (Interval Cstats) items !! i) as [run|] eqn:Hi;
        [|simpl; lia].
      unfold spawn in Hi. rewrite list_lookup_imap in Hi.
      destruct (items !! i) as [cs|]; [|discriminate]. injection Hi as <-.
      apply (collectStats_events (ContainerStats_ w i) (Interval Cstats) cs).
    - rewrite (Hf items Hl), length_seq. reflexivity. }
  split; [exact Hlen|]. intros Cstats' Hc Hres.
  destruct (cycle_result w Cstats items Cstats' Hc Hl Hres) as (-> & _).
  etransitivity; [apply drain_size|exact Hlen].
  apply Forall_forall. intros m Hm.
  apply channel_elem in Hm as (i & run & _ & Hrun & Hm).
  unfold spawn in Hrun. rewrite list_lookup_imap in Hrun.
  destruct (items !! i) as [cs|]; [|discriminate]. injection Hrun as <-.
  apply sends_collectStats in Hm as (name & _ & ->). eauto.
Qed.

Lemma GetContainerStats_capacity_witness :
  length (channel (arrival two_targets)
            (spawn two_targets (Interval (Init 1)) [target "1" "/a"; target "2" "/b"]))
  <= 2.
Proof.
  exact (proj1 (GetContainerStats_capacity two_targets (Init 1)
                  [target "1" "/a"; target "2" "/b"] two_targets_fair eq_refl)).
Defined.

Section Readings.
Import F64 F64Facts.
Local Open Scope Z_scope.

Lemma sub64_zero a b : uint64 a -> uint64 b -> sub64 a b = 0 <-> a = b.
Proof.
  unfold uint64. intros Ha Hb. split.
  - intros H. destruct (Z_lt_le_dec a b) as [Hlt|Hle].
    + rewrite sub64_wrapped in H by lia. lia.
    + rewrite sub64_exact in H by lia. lia.
  - intros ->. unfold sub64. rewrite Z.sub_diag. reflexivity.
Qed.

Lemma cpuPercent_positive d s c :
  0 < d < 2 ^ 64 -> 0 < s < 2 ^ 64 -> 0 < c < 2 ^ 32 ->
  fin_in false (-64) 108 (mul (mul (div (of_Z d) (of_Z s)) (of_Z c)) (of_Z 100)).
Proof.
  intros Hd Hs Hc.
  pose proof (of_Z_pos s 64 ltac:(lia) ltac:(lia)) as Fs.
  pose proof (of_Z_pos c 32 ltac:(lia) ltac:(lia)) as Fc.
  pose proof (of_Z_pos d 64 ltac:(lia) ltac:(lia)) as Fd.
  pose proof (SFdiv_range _ _ _ _ _ _ _ _ Fd Fs ltac:(lia) ltac:(lia)) as Fq.
  pose proof (SFmul_range _ _ _ _ _ _ _ _ Fq Fc ltac:(lia) ltac:(lia)) as Fm.
  pose proof (SFmul_range _ _ _ _ _ _ _ _ Fm of_Z_100 ltac:(lia) ltac:(lia)) as Fr.
  eapply fin_in_weaken; [exact Fr|simpl; lia..].
Qed.

(** The CPU reading is [0.0] exactly when one of the two counters did not
    move between the snapshots or no CPU is reported online: however small
    the CPU time used and however large the system time, the quotient never
    underflows to zero. *)
Theorem calculateCPUPercent_zero_iff current previous :
  container.wf current -> container.wf previous ->
  calculateCPUPercent current previous = zero
  <-> (container.TotalUsage (container.CPUUsage_ (container.CPUStats_ current))
       = container.TotalUsage (container.CPUUsage_ (container.CPUStats_ previous))
       \/ container.SystemUsage (container.CPUStats_ current)
          = container.SystemUsage (container.CPUStats_ previous)
       \/ container.OnlineCPUs (container.CPUStats_ current) = 0).
Proof.
  intros Wc Wp. rewrite (calculateCPUPercent_guard _ _ Wc Wp).
  destruct Wc as (Hct & Hcs & Hc & _), Wp as (Hpt & Hps & _).
  rewrite <- (sub64_zero _ _ Hct Hpt), <- (sub64_zero _ _ Hcs Hps).
  unfold onlineUnits, uint32 in *.
  set (d := sub64 (container.TotalUsage _) (container.TotalUsage _)).
  set (s := sub64 (container.SystemUsage _) (container.SystemUsage _)).
  assert (Hd : 0 <= d < 2 ^ 64) by (apply Z.mod_pos_bound; lia).
  assert (Hs : 0 <= s < 2 ^ 64) by (apply Z.mod_pos_bound; lia).
  destruct (decide _) as [Hg|Hne]; [split; [tauto|reflexivity]|].
  destruct (Z.eq_dec d 0) as [Hd0|Hd0].
  - split; [tauto|intros _]. rewrite Hd0.
    pose proof (of_Z_pos s 64 ltac:(lia) ltac:(lia)) as Fs.
    pose proof (of_Z_pos (container.OnlineCPUs (container.CPUStats_ current)) 32
                  ltac:(lia) ltac:(lia)) as Fc.
    change (of_Z 0) with zero.
    rewrite (div_zero_l _ _ _ _ Fs), (mul_zero_l _ _ _ _ Fc).
    apply (mul_zero_l _ _ _ _ of_Z_100).
  - split; [|tauto]. intros E.
    destruct (cpuPercent_positive d s (container.OnlineCPUs (container.CPUStats_ current)))
      as (m & e & E' & _); [lia..|].
    rewrite E' in E. discriminate.
Qed.

(** One nanosecond of CPU time against [2^64 - 1] of system time is not
    read as zero. *)
Lemma calculateCPUPercent_zero_iff_witness :
  calculateCPUPercent (snapshot 1 (2 ^ 64 - 1) 1 0 0 ∅) (snapshot 0 0 1 0 0 ∅) <> zero.
Proof.
  intros E.
  apply (calculateCPUPercent_zero_iff
           (snapshot 1 (2 ^ 64 - 1) 1 0 0 ∅) (snapshot 0 0 1 0 0 ∅)) in E;
    try (apply snapshot_wf; try (unfold uint64, uint32; lia); apply map_Forall_empty).
  simpl in E. lia.
Defined.

End Readings.

(** ** binary64: upper bounds through rounding

    Rounding to nearest never crosses a number that is itself representable
    at the rounding exponent: a quotient of at most one is rounded to at most
    [1.0], a product of at most an integer below [2^53] to at most that
    integer. *)

Module F64Order.
Import F64 F64Facts.
Local Open Scope Z_scope.

Lemma iter_pos_nat {A} (f : A -> A) p : forall x,
  SpecFloat.iter_pos f p x = Nat.iter (Pos.to_nat p) f x.
Proof.
  induction p as [p IH|p IH|]; intros x; simpl SpecFloat.iter_pos.
  - rewrite !IH, Pos2Nat.inj_xI. rewrite <- Nat.iter_add, <- Nat.iter_succ_r.
    f_equal. lia.
  - rewrite !IH, Pos2Nat.inj_xO. rewrite <- Nat.iter_add. f_equal. lia.
  - reflexivity.
Qed.

Lemma shr_1_exact r :
  shr_r r = false -> shr_s r = false -> 0 <= shr_m r -> shr_m r mod 2 = 0 ->
  shr_r (shr_1 r) = false /\ shr_s (shr_1 r) = false.
Proof.
  destruct r as [m rb sb]. simpl. intros -> -> Hm Hmod.
  destruct m as [|[p|p|]|p]; cbn; try (split; reflexivity); try lia.
  - rewrite Pos2Z.inj_xI in Hmod. Z.div_mod_to_equations. lia.
  - discriminate.
Qed.

Lemma nat_iter_shr_1_exact n : forall r,
  shr_r r = false -> shr_s r = false -> 0 <= shr_m r ->
  shr_m r mod 2 ^ Z.of_nat n = 0 ->
  shr_m (Nat.iter n shr_1 r) = shr_m r / 2 ^ Z.of_nat n
  /\ shr_r (Nat.iter n shr_1 r) = false /\ shr_s (Nat.iter n shr_1 r) = false.
Proof.
  induction n as [|n IH]; intros r Hr Hs Hm Hmod.
  - simpl. rewrite Z.div_1_r. auto.
  - rewrite Nat2Z.inj_succ, Z.pow_succ_r in * by lia.
    assert (Hp : 0 < 2 ^ Z.of_nat n) by (apply Z.pow_pos_nonneg; lia).
    assert (Hd : shr_m r = 2 * 2 ^ Z.of_nat n * (shr_m r / (2 * 2 ^ Z.of_nat n))).
    { apply Z.div_exact in Hmod; lia. }
    set (q := shr_m r / (2 * 2 ^ Z.of_nat n)) in *.
    assert (Hmod' : shr_m r mod 2 ^ Z.of_nat n = 0).
    { rewrite Hd. replace (2 * 2 ^ Z.of_nat n * q) with (2 * q * 2 ^ Z.of_nat n) by lia.
      apply Z.mod_mul. lia. }
    destruct (IH r Hr Hs Hm Hmod') as (E & Er & Es).
    assert (E2 : shr_m r / 2 ^ Z.of_nat n = 2 * q).
    { rewrite Hd at 1. replace (2 * 2 ^ Z.of_nat n * q) with (2 * q * 2 ^ Z.of_nat n) by lia.
      apply Z.div_mul. lia. }
    cbn [Nat.iter nat_rect].
    change (nat_rect _ r (fun _ => shr_1) n) with (Nat.iter n shr_1 r).
    rewrite E2 in E.
    assert (H0 : 0 <= shr_m (Nat.iter n shr_1 r)).
    { rewrite E. assert (0 <= q) by (apply Z.div_pos; lia). lia. }
    split.
    + rewrite shr_1_m by exact H0. rewrite E.
      rewrite Z.mul_comm, Z.div_mul by lia. reflexivity.
    + apply shr_1_exact; try assumption. rewrite E, Z.mul_comm. apply Z.mod_mul. lia.
Qed.

Lemma shr_fexp_exact m e :
  0 <= m ->
  m mod 2 ^ (Z.max e (fexp prec emax (Zdigits2 m + e)) - e) = 0 ->
  exists r, shr_fexp prec emax m e loc_Exact
            = (r, Z.max e (fexp prec emax (Zdigits2 m + e)))
    /\ shr_m r = m / 2 ^ (Z.max e (fexp prec emax (Zdigits2 m + e)) - e)
    /\ loc_of_shr_record r = loc_Exact.
Proof.
  intros Hm. unfold shr_fexp, shr.
  set (f := fexp prec emax (Zdigits2 m + e)).
  destruct (f - e) as [|p|p] eqn:Hn; intros Hmod.
  - exists (shr_record_of_loc m loc_Exact).
    replace (Z.max e f) with e by lia. rewrite Z.sub_diag, Z.div_1_r. auto.
  - replace (Z.max e f) with (e + Zpos p) in * by lia.
    replace (e + Zpos p - e) with (Zpos p) in * by lia.
    rewrite iter_pos_nat.
    destruct (nat_iter_shr_1_exact (Pos.to_nat p) (shr_record_of_loc m loc_Exact))
      as (E & Er & Es); try reflexivity; try exact Hm.
    { rewrite positive_nat_Z. exact Hmod. }
    rewrite positive_nat_Z in E.
    eexists. split; [reflexivity|]. split; [exact E|].
    destruct (Nat.iter _ _ _) as [m' rb sb]. simpl in Er, Es. subst. reflexivity.
  - exists (shr_record_of_loc m loc_Exact).
    replace (Z.max e f) with e by lia. rewrite Z.sub_diag, Z.div_1_r. auto.
Qed.

Lemma binary_round_aux_le s mx ex lx B :
  0 < mx -> -1021 <= Zdigits2 mx + ex <= 1023 -> ex <= 971 ->
  53 <= Zdigits2 mx ->
  B mod 2 ^ (Zdigits2 mx - 53) = 0 ->
  mx <= B -> (lx <> loc_Exact -> mx < B) ->
  exists m e,
    binary_round_aux prec emax s mx ex lx = S754_finite s m e
    /\ Zpos (digits2_pos m) = 53
    /\ ex + (Zdigits2 mx - 53) <= e <= ex + (Zdigits2 mx - 53) + 1
    /\ Zpos m * 2 ^ (e - ex) <= B.
Proof.
  intros Hmx HM Hex Hdig HB Hle Hlt.
  set (k := Zdigits2 mx - 53) in *.
  assert (Hk : 0 <= k) by lia.
  assert (Hpk : 0 < 2 ^ k) by (apply Z.pow_pos_nonneg; lia).
  assert (He1 : Z.max ex (fexp prec emax (Zdigits2 mx + ex)) = ex + k).
  { rewrite fexp_eq. unfold k. lia. }
  assert (HBN : B = B / 2 ^ k * 2 ^ k).
  { apply Z.div_exact in HB; lia. }
  set (N := B / 2 ^ k) in *.
  unfold binary_round_aux.
  assert (Hstep : exists r1, shr_fexp prec emax mx ex lx = (r1, ex + k)
            /\ shr_m r1 = mx / 2 ^ k
            /\ round_nearest_even (shr_m r1) (loc_of_shr_record r1) <= N).
  { destruct (Z.eq_dec (mx mod 2 ^ k) 0) as [Hz|Hnz]; [destruct lx as [|c]|].
    - destruct (shr_fexp_exact mx ex) as (r1 & E1 & M1 & L1); [lia| |].
      { rewrite He1. replace (ex + k - ex) with k by lia. exact Hz. }
      rewrite He1 in E1, M1. replace (ex + k - ex) with k in M1 by lia.
      exists r1. split; [exact E1|]. split; [exact M1|].
      rewrite L1. cbn [round_nearest_even]. rewrite M1.
      apply Z.div_le_lower_bound; [lia|].
      apply Z.div_exact in Hz; [|lia]. nia.
    - destruct (shr_fexp_spec mx ex (loc_Inexact c)) as (r1 & E1 & M1); [lia|].
      rewrite He1 in E1, M1. replace (ex + k - ex) with k in M1 by lia.
      exists r1. split; [exact E1|]. split; [exact M1|].
      pose proof (round_nearest_even_bounds (shr_m r1) (loc_of_shr_record r1)) as Hr.
      assert (mx / 2 ^ k < N).
      { apply Z.div_lt_upper_bound; [lia|]. specialize (Hlt ltac:(discriminate)). lia. }
      lia.
    - destruct (shr_fexp_spec mx ex lx) as (r1 & E1 & M1); [lia|].
      rewrite He1 in E1, M1. replace (ex + k - ex) with k in M1 by lia.
      exists r1. split; [exact E1|]. split; [exact M1|].
      pose proof (round_nearest_even_bounds (shr_m r1) (loc_of_shr_record r1)) as Hr.
      assert (mx / 2 ^ k < N).
      { apply Z.div_lt_upper_bound; [lia|].
        assert (mx <> N * 2 ^ k).
        { intros E. apply Hnz. rewrite E. apply Z.mod_mul. lia. }
        lia. }
      lia. }
  destruct Hstep as (r1 & E1 & M1 & HN). rewrite E1.
  destruct (Zdigits2_div_pow2 mx k Hmx) as (Hm1 & Hd1); [lia|].
  rewrite <- M1 in Hm1, Hd1.
  pose proof (round_nearest_even_bounds (shr_m r1) (loc_of_shr_record r1)) as Hr.
  set (m2 := round_nearest_even (shr_m r1) (loc_of_shr_record r1)) in *.
  assert (Hd2 : Zdigits2 (shr_m r1) <= Zdigits2 m2 <= Zdigits2 (shr_m r1) + 1).
  { destruct (Z.eq_dec m2 (shr_m r1)) as [->|Hne]; [lia|].
    replace m2 with (shr_m r1 + 1) by lia. apply Zdigits2_succ_le. exact Hm1. }
  destruct (shr_fexp_spec m2 (ex + k) loc_Exact) as (r2 & E2 & M2); [lia|]. rewrite E2.
  rewrite fexp_eq in M2. rewrite fexp_eq.
  set (e2 := Z.max (ex + k) (Z.max (Zdigits2 m2 + (ex + k) - 53) (-1074))) in *.
  destruct (Zdigits2_div_pow2 m2 (e2 - (ex + k))) as (Hm3 & Hd3); [lia|unfold e2; lia|].
  rewrite <- M2 in Hm3, Hd3.
  assert (Hval : shr_m r2 * 2 ^ (e2 - (ex + k)) <= m2).
  { rewrite M2. rewrite Z.mul_comm. apply Z.mul_div_le. apply Z.pow_pos_nonneg; unfold e2; lia. }
  destruct (shr_m r2) as [|m|m] eqn:Hr2; try lia.
  replace (e2 <=? emax - prec) with true
    by (symmetry; apply Z.leb_le; unfold emax, prec, e2; lia).
  exists m, e2. simpl Zdigits2 in Hd3.
  split; [reflexivity|]. split; [unfold e2 in *; lia|]. split; [unfold e2; lia|].
  replace (e2 - ex) with (e2 - (ex + k) + k) by lia.
  rewrite Z.pow_add_r by (unfold e2; lia).
  rewrite HBN. rewrite Z.mul_assoc. apply Z.mul_le_mono_nonneg_r; lia.
Qed.

Lemma pow2_mod a b : 0 <= b <= a -> 2 ^ a mod 2 ^ b = 0.
Proof.
  intros H. replace a with (a - b + b) by lia. rewrite Z.pow_add_r by lia.
  apply Z.mod_mul. apply Z.pow_nonzero; lia.
Qed.

Lemma scaled_le m e e0 B :
  Zpos (digits2_pos m) = 53 -> e0 <= e -> e0 <= 0 -> 0 < B < 2 ^ 53 ->
  Zpos m * 2 ^ (e - e0) <= B * 2 ^ (- e0) ->
  e <= 0 /\ Zpos m <= B * 2 ^ (- e).
Proof.
  intros Hd He He0 HB H.
  pose proof (digits2_pos_bounds m) as [Hlo _]. rewrite Hd in Hlo.
  change (2 ^ (53 - 1)) with (2 ^ 52) in Hlo.
  assert (Hp : 0 < 2 ^ (e - e0)) by (apply Z.pow_pos_nonneg; lia).
  assert (He' : e <= 0).
  { destruct (Z_le_gt_dec e 0) as [|Hgt]; [assumption|exfalso].
    assert (2 ^ (1 - e0) <= 2 ^ (e - e0)) by (apply Z.pow_le_mono_r; lia).
    replace (1 - e0) with (1 + - e0) in H0 by lia. rewrite Z.pow_add_r in H0 by lia.
    assert (0 < 2 ^ (- e0)) by (apply Z.pow_pos_nonneg; lia).
    change (2 ^ 1) with 2 in H0. nia. }
  split; [exact He'|].
  replace (- e0) with (- e + (e - e0)) in H by lia.
  rewrite Z.pow_add_r, Z.mul_assoc in H by lia.
  apply Z.mul_le_mono_pos_r in H; [exact H|exact Hp].
Qed.

Lemma of_Z_canonical n :
  0 < n < 2 ^ 53 ->
  exists m e, of_Z n = S754_finite false m e
    /\ Zpos (digits2_pos m) = 53 /\ -52 <= e <= 0 /\ Zpos m = n * 2 ^ (- e).
Proof.
  intros [Hn Hlt]. destruct n as [|p|p]; try lia.
  pose proof (Zdigits2_le_of_lt (Zpos p) 53 ltac:(lia) ltac:(lia) Hlt) as Hd.
  simpl Zdigits2 in Hd.
  unfold of_Z, binary_normalize, binary_round.
  destruct (shl_align_spec p 0 (fexp prec emax (Zpos (digits2_pos p) + 0)))
    as (mz & -> & Hmz).
  rewrite fexp_eq in *.
  set (ez := Z.min 0 _) in *.
  assert (Hez : ez = Zpos (digits2_pos p) - 53) by (unfold ez; lia).
  assert (Hdz : Zpos (digits2_pos mz) = 53).
  { change (Zpos (digits2_pos mz)) with (Zdigits2 (Zpos mz)).
    rewrite Hmz, Zdigits2_mul_pow2 by lia. simpl Zdigits2. lia. }
  rewrite binary_round_aux_exact by (try rewrite fexp_eq; lia).
  exists mz, ez. split; [reflexivity|]. split; [exact Hdz|]. split; [lia|].
  replace (- ez) with (0 - ez) by lia. exact Hmz.
Qed.

Lemma at_most_leb lo B x : at_most lo B x -> 0 < B < 2 ^ 53 -> leb x (of_Z B) = true.
Proof.
  intros [->|(m & e & -> & Hd & He & Hm)] HB;
    destruct (of_Z_canonical B HB) as (mB & eB & -> & HdB & HeB & HmB); [reflexivity|].
  unfold leb, SFleb, SFcompare.
  pose proof (digits2_pos_bounds m) as [Hlo Hhi]. rewrite Hd in Hlo, Hhi.
  pose proof (digits2_pos_bounds mB) as [HloB HhiB]. rewrite HdB in HloB, HhiB.
  change (2 ^ (53 - 1)) with (2 ^ 52) in *.
  destruct (Z.compare_spec e eB) as [->|Hlt|Hgt]; [|reflexivity|exfalso].
  - change (Pos.compare_cont Eq m mB) with (Pos.compare m mB).
    destruct (Pos.compare_spec m mB); try reflexivity. lia.
  - assert (2 ^ (- e) * 2 <= 2 ^ (- eB)).
    { replace (- eB) with (- e + (1 + (e - eB - 1))) by lia.
      rewrite Z.pow_add_r by lia.
      apply Z.mul_le_mono_nonneg_l; [apply Z.pow_nonneg; lia|].
      rewrite Z.pow_add_r by lia. change (2 ^ 1) with 2.
      assert (0 < 2 ^ (e - eB - 1)) by (apply Z.pow_pos_nonneg; lia). lia. }
    assert (0 < 2 ^ (- e)) by (apply Z.pow_pos_nonneg; lia).
    nia.
Qed.

Lemma at_most_nonneg lo B x : at_most lo B x -> leb zero x = true.
Proof. intros [->|(m & e & -> & _)]; reflexivity. Qed.

Lemma mul_pow2_mod a t k : 0 <= k <= t -> (a * 2 ^ t) mod 2 ^ k = 0.
Proof.
  intros H. replace t with (t - k + k) by lia. rewrite Z.pow_add_r, Z.mul_assoc by lia.
  apply Z.mod_mul. apply Z.pow_nonzero; lia.
Qed.

Lemma mul_at_most lo B c x :
  at_most lo B x -> 0 < B -> 0 < c -> B * c < 2 ^ 53 -> -900 <= lo ->
  at_most lo (B * c) (mul x (of_Z c)).
Proof.
  intros Hx HB Hc HBc Hlo.
  assert (Hc53 : c < 2 ^ 53) by nia.
  destruct (of_Z_canonical c (conj Hc Hc53)) as (my & ey & -> & Hdy & Hey & Hmy).
  destruct Hx as [->|(mx & ex & -> & Hdx & Hex & Hmx)]; [left; reflexivity|].
  right. unfold mul, SFmul. cbn [xorb].
  pose proof (Zdigits2_mul (Zpos mx) (Zpos my) eq_refl eq_refl) as HdP.
  simpl Zdigits2 in HdP. rewrite Hdx, Hdy in HdP.
  assert (Hpx : 0 < 2 ^ (- ex)) by (apply Z.pow_pos_nonneg; lia).
  assert (Hpy : 0 < 2 ^ (- ey)) by (apply Z.pow_pos_nonneg; lia).
  assert (HP : Zpos (mx * my) <= B * c * 2 ^ (- (ex + ey))).
  { replace (- (ex + ey)) with (- ex + - ey) by lia. rewrite Z.pow_add_r by lia.
    rewrite Pos2Z.inj_mul, Hmy. nia. }
  assert (HdP' : Zpos (digits2_pos (mx * my)) <= 53 - (ex + ey)).
  { change (Zpos (digits2_pos (mx * my))) with (Zdigits2 (Zpos (mx * my))).
    apply Zdigits2_le_of_lt; [lia|lia|].
    replace (53 - (ex + ey)) with (53 + - (ex + ey)) by lia. rewrite Z.pow_add_r by lia.
    assert (0 < 2 ^ (- (ex + ey))) by (apply Z.pow_pos_nonneg; lia). nia. }
  destruct (binary_round_aux_le false (Zpos (mx * my)) (ex + ey) loc_Exact
              (B * c * 2 ^ (- (ex + ey))))
    as (m & e & -> & Hd & He & Hm); simpl Zdigits2; try lia.
  { apply mul_pow2_mod. lia. }
  { congruence. }
  simpl Zdigits2 in He.
  destruct (scaled_le m e (ex + ey) (B * c) Hd) as (He0 & Hle); try lia.
  exists m, e. split; [reflexivity|]. split; [exact Hd|]. split; [lia|exact Hle].
Qed.

Lemma new_location_0 n : new_location n 0 = loc_Exact.
Proof.
  unfold new_location, new_location_even, new_location_odd.
  destruct (Z.even n); reflexivity.
Qed.

Lemma div_at_most lo B b x :
  at_most lo B x -> 0 < b < 2 ^ 53 -> B <= b -> -900 <= lo ->
  at_most (lo - 53) 1 (div x (of_Z b)).
Proof.
  intros Hx Hb HBb Hlo.
  destruct (of_Z_canonical b Hb) as (my & ey & -> & Hdy & Hey & Hmy).
  destruct Hx as [->|(mx & ex & -> & Hdx & Hex & Hmx)]; [left; reflexivity|].
  right. unfold div, SFdiv, SFdiv_core_binary. simpl Zdigits2. cbn [xorb].
  rewrite Hdx, Hdy, fexp_eq.
  pose proof (digits2_pos_bounds mx) as [Hlox Hhix]. rewrite Hdx in Hlox, Hhix.
  pose proof (digits2_pos_bounds my) as [Hloy Hhiy]. rewrite Hdy in Hloy, Hhiy.
  change (2 ^ (53 - 1)) with (2 ^ 52) in *.
  assert (Hpx : 0 < 2 ^ (- ex)) by (apply Z.pow_pos_nonneg; lia).
  assert (Hpy : 0 < 2 ^ (- ey)) by (apply Z.pow_pos_nonneg; lia).
  assert (Hxy : ex <= ey).
  { destruct (Z_le_gt_dec ex ey) as [|Hgt]; [assumption|exfalso].
    assert (2 ^ (- ex) * 2 <= 2 ^ (- ey)).
    { replace (- ey) with (- ex + (1 + (ex - ey - 1))) by lia.
      rewrite Z.pow_add_r by lia.
      apply Z.mul_le_mono_nonneg_l; [lia|].
      rewrite Z.pow_add_r by lia. change (2 ^ 1) with 2.
      assert (0 < 2 ^ (ex - ey - 1)) by (apply Z.pow_pos_nonneg; lia). lia. }
    nia. }
  replace (Z.min (Z.max (53 + ex - (53 + ey) - 53) (-1074)) (ex - ey))
    with (ex - ey - 53) by lia.
  replace (ex - ey - (ex - ey - 53)) with 53 by lia.
  set (e' := ex - ey - 53).
  rewrite Z.shiftl_mul_pow2 by lia.
  set (m' := Zpos mx * 2 ^ 53).
  assert (Hq : Z.div_eucl m' (Zpos my) = (m' / Zpos my, m' mod Zpos my)).
  { unfold Z.div, Z.modulo. destruct (Z.div_eucl m' (Zpos my)). reflexivity. }
  rewrite Hq.
  pose proof (Z.div_mod m' (Zpos my) ltac:(lia)) as Hdm.
  pose proof (Z.mod_pos_bound m' (Zpos my) ltac:(lia)) as Hr.
  set (q := m' / Zpos my) in *. set (r := m' mod Zpos my) in *.
  assert (Hm'B : m' <= Zpos my * 2 ^ (- e')).
  { unfold m', e'. replace (- (ex - ey - 53)) with (ey - ex + 53) by lia.
    rewrite Z.pow_add_r, Z.mul_assoc by lia.
    apply Z.mul_le_mono_nonneg_r; [lia|].
    rewrite Hmy, <- Z.mul_assoc, <- Z.pow_add_r by lia.
    replace (- ey + (ey - ex)) with (- ex) by lia. nia. }
  assert (Hpe : 0 < 2 ^ (- e')) by (apply Z.pow_pos_nonneg; unfold e'; lia).
  assert (HqB : q <= 2 ^ (- e')) by nia.
  assert (Hqlo : 2 ^ 52 <= q).
  { unfold q. apply Z.div_le_lower_bound; [lia|]. unfold m'.
    change (2 ^ 53) with (2 * 2 ^ 52). nia. }
  assert (Hdq : 53 <= Zdigits2 q <= - e' + 1).
  { split.
    - apply (Zdigits2_ge_of_le q 52); [lia|exact Hqlo].
    - destruct (Z.eq_dec q (2 ^ (- e'))) as [->|Hne].
      + rewrite (Zdigits2_unique (2 ^ (- e')) (- e' + 1)); [lia| |unfold e'; lia].
        replace (- e' + 1 - 1) with (- e') by lia. split; [lia|].
        rewrite Z.pow_add_r by (unfold e'; lia). change (2 ^ 1) with 2. lia.
      + assert (Zdigits2 q <= - e'); [|lia].
        apply Zdigits2_le_of_lt; [lia|unfold e'; lia|lia]. }
  destruct (binary_round_aux_le false q e' (new_location (Zpos my) r) (2 ^ (- e')))
    as (m & e & -> & Hd & He & Hm); try (unfold e' in *; lia).
  { apply pow2_mod. unfold e' in *. lia. }
  { intros Hloc. destruct (Z.eq_dec r 0) as [Hr0|Hr0]; [|nia].
    exfalso. apply Hloc. rewrite Hr0. apply new_location_0. }
  destruct (scaled_le m e e' 1 Hd) as (He0 & Hle); try (unfold e' in *; lia).
  exists m, e. split; [reflexivity|]. split; [exact Hd|].
  split; [unfold e' in *; lia|exact Hle].
Qed.

Lemma binary_round_at_most n t p :
  Zpos p = n * 2 ^ t -> 0 < n < 2 ^ 53 -> 0 <= t <= 52 ->
  at_most (-52) n (binary_round prec emax false p (- t)).
Proof.
  intros Hp Hn Ht. right. unfold binary_round.
  destruct (shl_align_spec p (- t) (fexp prec emax (Zpos (digits2_pos p) + - t)))
    as (mz & -> & Hmz).
  rewrite fexp_eq in *.
  destruct (Zdigits2_bounds n ltac:(lia)) as (Hdn & _).
  pose proof (Zdigits2_le_of_lt n 53 ltac:(lia) ltac:(lia) (proj2 Hn)) as Hdn'.
  assert (Hdp : Zpos (digits2_pos p) = Zdigits2 n + t).
  { change (Zpos (digits2_pos p)) with (Zdigits2 (Zpos p)).
    rewrite Hp. apply Zdigits2_mul_pow2; lia. }
  rewrite Hdp in *.
  set (ez := Z.min (- t) _) in *.
  assert (Hez : ez = Z.min (- t) (Zdigits2 n - 53)) by (unfold ez; lia).
  clearbody ez.
  assert (Hmz' : Zpos mz = n * 2 ^ (- ez)).
  { rewrite Hmz, Hp, <- Z.mul_assoc, <- Z.pow_add_r by lia. f_equal. f_equal. lia. }
  assert (Hdz : Zdigits2 (Zpos mz) = Zdigits2 n - ez).
  { rewrite Hmz'. rewrite Zdigits2_mul_pow2 by lia. lia. }
  destruct (binary_round_aux_le false (Zpos mz) ez loc_Exact (Zpos mz))
    as (m & e & -> & Hd & He & Hm); try lia.
  { rewrite Hdz, Hmz'. apply mul_pow2_mod. lia. }
  { congruence. }
  rewrite Hmz' in Hm.
  destruct (scaled_le m e ez n Hd) as (He0 & Hle); try lia.
  exists m, e. split; [reflexivity|]. split; [exact Hd|]. split; [lia|exact Hle].
Qed.

Lemma sub_at_most u c :
  0 <= c <= u -> u < 2 ^ 53 -> at_most (-52) (u - c) (sub (of_Z u) (of_Z c)).
Proof.
  intros Hc Hu.
  destruct (Z.eq_dec u 0) as [->|Hu0].
  { replace c with 0 by lia. left. reflexivity. }
  destruct (of_Z_canonical u ltac:(lia)) as (mu & eu & Eu & Hdu & Heu & Vu).
  destruct (Z.eq_dec c 0) as [->|Hc0].
  { rewrite Eu. right. exists mu, eu. rewrite Z.sub_0_r.
    split; [reflexivity|]. split; [exact Hdu|]. split; [lia|lia]. }
  destruct (of_Z_canonical c ltac:(lia)) as (mc & ec & Ec & Hdc & Hec & Vc).
  rewrite Eu, Ec. unfold sub. cbn [SFsub cond_Zopp].
  set (ez := Z.min eu ec).
  destruct (shl_align_spec mu eu ez) as (ma & -> & Ha).
  destruct (shl_align_spec mc ec ez) as (mb & -> & Hb).
  cbn [fst]. replace (Z.min eu ez) with ez in Ha by lia.
  replace (Z.min ec ez) with ez in Hb by lia.
  assert (Ea : Zpos ma = u * 2 ^ (- ez)).
  { rewrite Ha, Vu, <- Z.mul_assoc, <- Z.pow_add_r by lia. f_equal. f_equal. lia. }
  assert (Eb : Zpos mb = c * 2 ^ (- ez)).
  { rewrite Hb, Vc, <- Z.mul_assoc, <- Z.pow_add_r by lia. f_equal. f_equal. lia. }
  assert (Hp : 0 < 2 ^ (- ez)) by (apply Z.pow_pos_nonneg; lia).
  assert (Hd : Zpos ma - Zpos mb = (u - c) * 2 ^ (- ez)) by (rewrite Ea, Eb; ring).
  destruct (Zpos ma - Zpos mb) as [|d|d] eqn:Hdiff; cbn [binary_normalize].
  - left. reflexivity.
  - replace ez with (- - ez) at 1 by lia.
    apply (binary_round_at_most (u - c) (- ez) d Hd); [|lia]. nia.
  - exfalso. nia.
Qed.

Lemma of_Z_at_most n : 0 <= n < 2 ^ 53 -> at_most (-52) n (of_Z n).
Proof.
  intros Hn. destruct (Z.eq_dec n 0) as [->|Hn0]; [left; reflexivity|right].
  destruct (of_Z_canonical n ltac:(lia)) as (m & e & -> & Hd & He & Hm).
  exists m, e. split; [reflexivity|]. split; [exact Hd|]. split; [lia|lia].
Qed.

End F64Order.

(** ** The range of the published percentages *)

Section Envelope.
Import F64 F64Facts F64Order.
Local Open Scope Z_scope.

(** When the cache does not exceed the usage and the usage does not exceed
    the limit (all below [2^53] bytes), the memory percentage lies between
    [0.0] and [100.0]: rounding never pushes it above 100. *)
Theorem memPercentOf_within_100 current :
  container.wf current ->
  memoryCacheBytes current <= memoryUsageBytes current <= memoryLimitBytes current ->
  memoryLimitBytes current < 2 ^ 53 ->
  leb zero (memPercentOf current) = true
  /\ leb (memPercentOf current) (of_Z 100) = true.
Proof.
  intros W Hcul Hl53. pose proof (memUsageOf_formula current W) as EU.
  destruct W as (_ & _ & _ & Hu & Hlim & Hst).
  assert (Hc0 : 0 <= memoryCacheBytes current).
  { unfold memoryCacheBytes.
    destruct (container.Stats _ !! "cache") as [cache|] eqn:Hc; simpl; [|lia].
    apply (Hst _ _ Hc). }
  unfold memPercentOf, memoryUsageBytes, memoryLimitBytes, uint64 in *.
  destruct (Z.eq_dec (container.Limit (container.MemoryStats_ current)) 0) as [->|Hl].
  { split; reflexivity. }
  pose proof (of_Z_pos (container.Limit (container.MemoryStats_ current)) 64
                ltac:(lia) ltac:(lia)) as Fl.
  destruct (fin_in_positive _ _ _ Fl) as (_ & -> & _). rewrite EU.
  pose proof (sub_at_most (container.Usage (container.MemoryStats_ current))
                (memoryCacheBytes current) ltac:(lia) ltac:(lia)) as A1.
  pose proof (div_at_most _ _ (container.Limit (container.MemoryStats_ current)) _ A1
                ltac:(lia) ltac:(lia) ltac:(lia)) as A2.
  pose proof (mul_at_most _ _ 100 _ A2 ltac:(lia) ltac:(lia) ltac:(lia) ltac:(lia)) as A3.
  split; [exact (at_most_nonneg _ _ _ A3)|].
  exact (at_most_leb _ _ _ A3 ltac:(lia)).
Qed.

(** Usage equal to the limit, no cache: exactly at the bound. *)
Lemma memPercentOf_within_100_witness :
  leb (memPercentOf (snapshot 0 0 1 100 100 ∅)) (of_Z 100) = true.
Proof.
  refine (proj2 (memPercentOf_within_100 (snapshot 0 0 1 100 100 ∅) _ _ _)).
  - apply snapshot_wf; try (unfold uint64, uint32; lia). apply map_Forall_empty.
  - vm_compute. split; discriminate.
  - reflexivity.
Defined.

(** When neither counter went backwards and the container used no more CPU
    time than the system as a whole (deltas below [2^53]), the CPU
    percentage is at most 100 per online CPU. *)
Theorem calculateCPUPercent_within current previous :
  container.wf current -> container.wf previous ->
  0 <= cpuDelta current previous <= systemDelta current previous ->
  systemDelta current previous < 2 ^ 53 ->
  leb (calculateCPUPercent current previous) (of_Z (100 * onlineUnits current)) = true.
Proof.
  intros Wc Wp Hd Hs. rewrite (calculateCPUPercent_guard _ _ Wc Wp).
  destruct Wc as (Hct & Hcs & Hc & _), Wp as (Hpt & Hps & _).
  unfold cpuDelta, systemDelta, onlineUnits, uint64, uint32 in *.
  rewrite !sub64_exact by lia.
  set (d := container.TotalUsage _ - container.TotalUsage _) in *.
  set (s := container.SystemUsage _ - container.SystemUsage _) in *.
  set (c := container.OnlineCPUs _) in *.
  destruct (decide _) as [_|Hne].
  { assert (Hc' : 0 <= 100 * c < 2 ^ 40) by (clearbody c; lia).
    destruct (of_Z_nonneg_in (100 * c) 40 Hc' ltac:(lia))
      as [->|(m & e & -> & _)]; reflexivity. }
  clearbody d s c.
  pose proof (of_Z_at_most d ltac:(lia)) as A1.
  pose proof (div_at_most _ _ s _ A1 ltac:(lia) ltac:(lia) ltac:(lia)) as A2.
  pose proof (mul_at_most _ _ c _ A2 ltac:(lia) ltac:(lia) ltac:(lia) ltac:(lia)) as A3.
  pose proof (mul_at_most _ _ 100 _ A3 ltac:(lia) ltac:(lia) ltac:(lia) ltac:(lia)) as A4.
  replace (100 * c) with (1 * c * 100) by lia.
  exact (at_most_leb _ _ _ A4 ltac:(lia)).
Qed.

(** The example of the specification: 50 of 100 on two CPUs is within 200. *)
Lemma calculateCPUPercent_within_witness :
  leb (calculateCPUPercent (snapshot 150 1100 2 0 0 ∅) (snapshot 100 1000 2 0 0 ∅))
      (of_Z 200) = true.
Proof.
  refine (calculateCPUPercent_within
            (snapshot 150 1100 2 0 0 ∅) (snapshot 100 1000 2 0 0 ∅) _ _ _ _);
    try (apply snapshot_wf; try (unfold uint64, uint32; lia); apply map_Forall_empty).
  - vm_compute. split; discriminate.
  - reflexivity.
Defined.

End Envelope.
